(** * The command runner of the WireGuard toggle panels

    A shallow embedding of [togglev2.py] and [wireguard_toggle.py]: the
    background [CommandThread.run] of both files, the ANSI stripping of
    [togglev2.py], and the [append_log] / [start_command] methods of the
    [WireGuardToggle] window.

    Conventions.
    - A Python [str] is a [list ascii]; an [ascii] stands for the code point
      of the same number (U+0000 to U+00FF).  The characters are those that
      [process.stdout] hands to the program, that is after the text layer of
      [subprocess] has decoded the pipe.
    - The exceptions raised by [subprocess.Popen], [read], the iteration over
      [process.stdout] and [wait] are instances of [Exception] (OSError,
      ValueError, UnicodeDecodeError, ...); an exception is kept as its
      [str(e)].
    - Signals emitted by the thread are collected, in order, in a list. *)

From Stdlib Require Import List Ascii String ZArith NArith Bool Lia DecimalString.
From Stdlib Require Import DecimalZ DecimalPos.
Import ListNotations.

Local Open Scope list_scope.

(** A Python string, as a list of characters. *)
Definition str : Type := list ascii.

(** A string literal. *)
Definition py (s : string) : str := list_ascii_of_string s.
Arguments py : simpl never.

Definition LF : ascii := ascii_of_N 10.
Definition CR : ascii := ascii_of_N 13.
Definition ESC : ascii := ascii_of_N 27.

(** [ord(c)]. *)
Definition ord (c : ascii) : N := N_of_ascii c.

(** [if s:] on a string. *)
Definition truthy (s : str) : bool :=
  match s with [] => false | _ :: _ => true end.

(** ** The built-in string methods the program calls *)
Module Py.

(** [c.isspace()] for a code point below 256: the ASCII white space of
    CPython (TAB, LF, VT, FF, CR, FS, GS, RS, US, SPACE), NEL and NBSP. *)
Definition isspace (c : ascii) : bool :=
  let n := ord c in
  ((9 <=? n) && (n <=? 13) || (28 <=? n) && (n <=? 31) || (n =? 32)
   || (n =? 133) || (n =? 160))%N.

Fixpoint dropwhile (f : ascii -> bool) (s : str) : str :=
  match s with
  | [] => []
  | c :: t => if f c then dropwhile f t else s
  end.

(** [s.lstrip()], [s.rstrip()], [s.strip()]. *)
Definition lstrip (s : str) : str := dropwhile isspace s.
Definition rstrip (s : str) : str := rev (dropwhile isspace (rev s)).
Definition strip (s : str) : str := lstrip (rstrip s).

(** [s.rstrip(chars)] with a one-character [chars]. *)
Definition rstrip_char (ch : ascii) (s : str) : str :=
  rev (dropwhile (Ascii.eqb ch) (rev s)).

(** [s.lower()] on code points below 256: A-Z, and the capital letters
    U+00C0 to U+00DE but for the multiplication sign U+00D7. *)
Definition lower_char (c : ascii) : ascii :=
  let n := ord c in
  if ((65 <=? n) && (n <=? 90)
      || (192 <=? n) && (n <=? 222) && negb (n =? 215))%N
  then ascii_of_N (n + 32) else c.

Definition lower (s : str) : str := map lower_char s.

(** [s.startswith(prefix)]. *)
Fixpoint startswith (s prefix : str) : bool :=
  match prefix, s with
  | [], _ => true
  | _ :: _, [] => false
  | p :: prefix', c :: s' => Ascii.eqb c p && startswith s' prefix'
  end.

(** [w in s]: [w] occurs in [s] as a substring. *)
Fixpoint contains (w s : str) : bool :=
  startswith s w ||
  match s with
  | [] => false
  | _ :: s' => contains w s'
  end.

(** [any(f(w) for w in ws)]. *)
Definition any {A} (f : A -> bool) (ws : list A) : bool := existsb f ws.

(** [str(n)] of an integer, as the f-string [{n}] prints it. *)
Definition str_of_int (n : Z) : str :=
  list_ascii_of_string (NilZero.string_of_int (Z.to_int n)).

End Py.

(** ** The fragment of [re] that [ANSI_ESCAPE] is written in *)
Module re.

(** A character set [[a-b c-d ...]] as its ranges. *)
Definition charset := list (ascii * ascii).

Definition in_set (cs : charset) (c : ascii) : bool :=
  existsb (fun r => (ord (fst r) <=? ord c) && (ord c <=? ord (snd r)))%N cs.

Inductive pattern : Type :=
| Lit (c : ascii)                 (* one literal character *)
| Set_ (cs : charset)             (* [...] *)
| Star (cs : charset)             (* [...]*  , greedy *)
| Cat (p q : pattern)             (* p q *)
| Alt (p q : pattern).            (* p | q *)

(** What is left of [s] after [[...]*] took [k] characters, for every
    possible [k], the longest first: the order in which the backtracking
    matcher tries them. *)
Fixpoint star_ends (cs : charset) (s : str) : list str :=
  match s with
  | [] => [[]]
  | c :: t => if in_set cs c then star_ends cs t ++ [s] else [s]
  end.

(** The remainders of [s] after a match of [p] at its start, in the order
    the backtracking matcher finds them. *)
Fixpoint ends (p : pattern) (s : str) : list str :=
  match p with
  | Lit c =>
      match s with
      | x :: t => if Ascii.eqb x c then [t] else []
      | [] => []
      end
  | Set_ cs =>
      match s with
      | x :: t => if in_set cs x then [t] else []
      | [] => []
      end
  | Star cs => star_ends cs s
  | Cat p q => flat_map (ends q) (ends p s)
  | Alt p q => ends p s ++ ends q s
  end.

(** [p.match(s)]: the length of the match at the start of [s], if any. *)
Definition match_len (p : pattern) (s : str) : option nat :=
  match ends p s with
  | [] => None
  | r :: _ => Some (List.length s - List.length r)
  end.

(** [p.sub('', s)], scanning from the left; [skip] counts the characters
    of the current match that are still to be passed over. *)
Fixpoint sub_at (p : pattern) (skip : nat) (s : str) : str :=
  match s with
  | [] => []
  | c :: t =>
      match skip with
      | S k => sub_at p k t
      | O =>
          match match_len p s with
          | Some (S k) => sub_at p k t
          | _ => c :: sub_at p O t
          end
      end
  end.

Definition sub_empty (p : pattern) (s : str) : str := sub_at p 0 s.

End re.

(** ** [togglev2.py]: stripping ANSI escape codes *)

(** [ANSI_ESCAPE = re.compile(r'\x1B(?:[@-Z\\-_]|\[[0-?]*[ -/]*[@-~])')] *)
Definition ANSI_ESCAPE : re.pattern :=
  re.Cat (re.Lit ESC)
    (re.Alt (re.Set_ [("@"%char, "Z"%char); ("\"%char, "_"%char)])
            (re.Cat (re.Lit "["%char)
               (re.Cat (re.Star [("0"%char, "?"%char)])
                  (re.Cat (re.Star [(" "%char, "/"%char)])
                          (re.Set_ [("@"%char, "~"%char)]))))).

Definition strip_ansi (text : str) : str := re.sub_empty ANSI_ESCAPE text.

(** The sanitizing step of the loop: [strip_ansi(buf).strip()]. *)
Definition sanitize (buf : str) : str := Py.strip (strip_ansi buf).

(** ** The thread's signals and the process it talks to *)

(** [output_ready = pyqtSignal(str)], [finished_ok = pyqtSignal()],
    [finished_err = pyqtSignal(str)]. *)
Inductive Signal : Type :=
| output_ready (line : str)
| finished_ok
| finished_err (msg : str).

Definition is_terminal (ev : Signal) : bool :=
  match ev with
  | output_ready _ => false
  | finished_ok | finished_err _ => true
  end.

(** An instance of [Exception], kept as its [str(e)]. *)
Inductive PyException : Type :=
| Exception (msg : str).

Definition str_of_exc (e : PyException) : str :=
  match e with Exception msg => msg end.

(** One request for the next character of [process.stdout]. *)
Inductive read_result : Type :=
| Char (c : ascii)
| ReadError (e : PyException).

(** The child process as the thread sees it: what its combined output
    delivers, read after read (end of file once the list is exhausted: the
    output of the child ends, or a read raises), and what [process.wait()]
    does: it raises, or it returns and leaves the exit status in
    [process.returncode]. *)
Record Popen : Type := {
  stdout : list read_result;
  wait : PyException + Z
}.

(** What [subprocess.Popen(command, shell=True, ...)] does for a command:
    it raises, or it hands back the process. *)
Definition Shell : Type := str -> PyException + Popen.

(** *** Emitting signals, raising and catching *)

(** A computation of the thread: the signals emitted so far, and either the
    exception that interrupted it or its value. *)
Definition M (A : Type) : Type := (list Signal * (PyException + A))%type.

Definition ret {A} (a : A) : M A := ([], inr a).
Definition raise {A} (e : PyException) : M A := ([], inl e).
Definition emit (ev : Signal) : M unit := ([ev], inr tt).

Definition bind {A B} (m : M A) (k : A -> M B) : M B :=
  match m with
  | (evs, inl e) => (evs, inl e)
  | (evs, inr a) => let (evs', r) := k a in (evs ++ evs', r)
  end.

(** [try: body  except Exception as e: handler(e)]. *)
Definition try_except {A} (body : M A) (handler : PyException -> M A) : M A :=
  match body with
  | (evs, inl e) => let (evs', r) := handler e in (evs ++ evs', r)
  | (evs, inr a) => (evs, inr a)
  end.

(** A call that raises or returns. *)
Definition call {A} (r : PyException + A) : M A := ([], r).

Declare Scope thread_scope.
Delimit Scope thread_scope with thread.
Notation "x <- m ;; k" := (bind m (fun x => k))
  (at level 61, m at next level, right associativity) : thread_scope.
Notation "m ;; k" := (bind m (fun _ => k))
  (at level 61, right associativity) : thread_scope.

Definition signals {A} (m : M A) : list Signal := fst m.
Definition escaped {A} (m : M A) : option PyException :=
  match snd m with inl e => Some e | inr _ => None end.

(** The lines carried by the [output_ready] signals, in order. *)
Fixpoint lines_of (evs : list Signal) : list str :=
  match evs with
  | [] => []
  | output_ready l :: evs' => l :: lines_of evs'
  | _ :: evs' => lines_of evs'
  end.

(** The end of both [run] methods:
    [if process.returncode == 0: ... else: ... f"Exit code {returncode}"]. *)
Definition report (returncode : Z) : M unit :=
  if (returncode =? 0)%Z then emit finished_ok
  else emit (finished_err (py "Exit code " ++ Py.str_of_int returncode)).

(** ** [togglev2.py]: [CommandThread] *)
Module togglev2.

Record CommandThread : Type := { command : str }.

(** [line = strip_ansi(buf).strip(); if line: self.output_ready.emit(line)] *)
Definition emit_line (buf : str) : M unit :=
  let line := sanitize buf in
  if truthy line then emit (output_ready line) else ret tt.

(** The [while True] loop: [ch = process.stdout.read(1)] takes the next
    element of the output; the loop leaves with the buffer when [ch] is
    empty. *)
Fixpoint read_loop (buf : str) (out : list read_result) : M str :=
  match out with
  | [] => ret buf
  | ReadError e :: _ => raise e
  | Char ch :: out' =>
      if Ascii.eqb ch LF || Ascii.eqb ch CR then
        (emit_line buf ;; read_loop [] out')%thread
      else read_loop (buf ++ [ch]) out'
  end.

Definition run (sh : Shell) (self : CommandThread) : M unit :=
  try_except
    (process <- call (sh (command self)) ;;
     buf <- read_loop [] (stdout process) ;;
     (if truthy buf then emit_line buf else ret tt) ;;
     returncode <- call (wait process) ;;
     report returncode)%thread
    (fun e => emit (finished_err (str_of_exc e))).

(** The lines the loop and the final flush emit for an output that is read
    without error. *)
Definition lines (s : str) : list str :=
  lines_of (signals (buf <- read_loop [] (map Char s) ;;
                     if truthy buf then emit_line buf else ret tt)%thread).

End togglev2.

(** ** [wireguard_toggle.py]: [CommandThread] *)
Module wireguard_toggle.

Record CommandThread : Type := { command : str }.

(** [for line in process.stdout]: the lines the iteration yields, each
    with its ["\n"], the last one without it when the output does not end
    in one; and the exception that ends the iteration, if a read raises. *)
Fixpoint iter (pending : str) (out : list read_result)
  : list str * option PyException :=
  match out with
  | [] => (if truthy pending then [pending] else [], None)
  | ReadError e :: _ => ([], Some e)
  | Char ch :: out' =>
      if Ascii.eqb ch LF then
        let (ls, e) := iter [] out' in ((pending ++ [ch]) :: ls, e)
      else iter (pending ++ [ch]) out'
  end.

(** The body of the [for]:
    [line = line.rstrip("\n"); if line: self.output_ready.emit(line)]. *)
Definition body (line : str) : M unit :=
  let line := Py.rstrip_char LF line in
  if truthy line then emit (output_ready line) else ret tt.

Fixpoint for_each (ls : list str) : M unit :=
  match ls with
  | [] => ret tt
  | l :: ls' => (body l ;; for_each ls')%thread
  end.

Definition for_line_in (out : list read_result) : M unit :=
  let (ls, e) := iter [] out in
  (for_each ls ;;
   match e with Some e => raise e | None => ret tt end)%thread.

Definition run (sh : Shell) (self : CommandThread) : M unit :=
  try_except
    (process <- call (sh (command self)) ;;
     for_line_in (stdout process) ;;
     returncode <- call (wait process) ;;
     report returncode)%thread
    (fun e => emit (finished_err (str_of_exc e))).

Definition lines (s : str) : list str :=
  lines_of (signals (for_line_in (map Char s))).

End wireguard_toggle.

(** ** The [WireGuardToggle] window

    The two files have the same methods; they differ in the buttons of the
    window and in which of them [set_buttons_enabled] switches. *)

(** The tag of a log line, which [append_log] renders as a colour. *)
Inductive tag : Type := directive | error | plain.

Definition tag_color (t : tag) : str :=
  match t with
  | directive => py "#4ec9b0"
  | error => py "#f44747"
  | plain => py "#d4d4d4"
  end.

(** The tuple [("error", "failed", "fatal")] of [append_log]. *)
Definition keywords : list str := [py "error"; py "failed"; py "fatal"].

(** The [if] / [elif] / [else] of [append_log]. *)
Definition classify (line : str) : tag :=
  if Py.startswith line (py "[#]") then directive
  else if Py.any (fun w => Py.contains w (Py.lower line)) keywords then error
  else plain.

(** [<span style="color:COLOR;">TEXT</span>], kept as its two variable
    parts. *)
Record span : Type := { color : str; text : str }.

Inductive button : Type :=
| btn_up | btn_down | btn_myip | btn_ping | btn_config | btn_status.

Definition button_eqb (a b : button) : bool :=
  match a, b with
  | btn_up, btn_up | btn_down, btn_down | btn_myip, btn_myip
  | btn_ping, btn_ping | btn_config, btn_config | btn_status, btn_status => true
  | _, _ => false
  end.

(** Which of the two files the window is the one of. *)
Inductive Panel : Type := Togglev2 | WireguardToggle.

(** The buttons [__init__] creates. *)
Definition buttons (p : Panel) : list button :=
  match p with
  | Togglev2 => [btn_up; btn_down; btn_myip; btn_ping; btn_config; btn_status]
  | WireguardToggle => [btn_up; btn_down]
  end.

(** The buttons [set_buttons_enabled] switches. *)
Definition switched (p : Panel) : list button :=
  match p with
  | Togglev2 => [btn_up; btn_down; btn_myip; btn_status]
  | WireguardToggle => [btn_up; btn_down]
  end.

(** The text of the status label; the pictographs of the f-strings are kept
    in the constructor. *)
Inductive StatusText : Type :=
| status_initial                              (* "Status: -" *)
| status_running (label : str)                (* "... Running {label}..." *)
| status_completed (label : str)              (* "... {label} completed successfully" *)
| status_failed (label err : str).            (* "... {label} failed: {err}" *)

(** A started [CommandThread], with the label its two lambdas captured. *)
Record Started : Type := { thread_command : str; thread_label : str }.

Record WireGuardToggle : Type := {
  btn_enabled : button -> bool;
  status_color : str;
  status_text : StatusText;
  log_box : list span;
  _thread : option Started;
  (** the threads that were started and whose finished signal the window
      has not received yet *)
  in_flight : list Started
}.

(** The window at the end of [__init__]. *)
Definition init : WireGuardToggle :=
  {| btn_enabled := fun _ => true;
     status_color := py "#888888";
     status_text := status_initial;
     log_box := [];
     _thread := None;
     in_flight := [] |}.

Inductive ExecutionState : Type := Idle | Running.

Definition execution_state (w : WireGuardToggle) : ExecutionState :=
  match in_flight w with [] => Idle | _ :: _ => Running end.

(** [set_status(ok, message)]; [ok] is [None], [True] or [False]. *)
Definition set_status (ok : option bool) (message : StatusText)
    (w : WireGuardToggle) : WireGuardToggle :=
  {| btn_enabled := btn_enabled w;
     status_color := match ok with
                     | Some true => py "#27ae60"
                     | _ => py "#e74c3c"
                     end;
     status_text := message;
     log_box := log_box w;
     _thread := _thread w;
     in_flight := in_flight w |}.

Definition set_status_style (c : str) (w : WireGuardToggle) : WireGuardToggle :=
  {| btn_enabled := btn_enabled w;
     status_color := c;
     status_text := status_text w;
     log_box := log_box w;
     _thread := _thread w;
     in_flight := in_flight w |}.

Definition set_log (l : list span) (w : WireGuardToggle) : WireGuardToggle :=
  {| btn_enabled := btn_enabled w;
     status_color := status_color w;
     status_text := status_text w;
     log_box := l;
     _thread := _thread w;
     in_flight := in_flight w |}.

Definition append_log (line : str) (w : WireGuardToggle) : WireGuardToggle :=
  set_log (log_box w ++ [{| color := tag_color (classify line); text := line |}]) w.

Definition set_buttons_enabled (p : Panel) (enabled : bool)
    (w : WireGuardToggle) : WireGuardToggle :=
  {| btn_enabled := fun b => if existsb (button_eqb b) (switched p)
                             then enabled else btn_enabled w b;
     status_color := status_color w;
     status_text := status_text w;
     log_box := log_box w;
     _thread := _thread w;
     in_flight := in_flight w |}.

(** [self._thread = CommandThread(command)], the three [connect], and
    [self._thread.start()]. *)
Definition launch (t : Started) (w : WireGuardToggle) : WireGuardToggle :=
  {| btn_enabled := btn_enabled w;
     status_color := status_color w;
     status_text := status_text w;
     log_box := log_box w;
     _thread := Some t;
     in_flight := in_flight w ++ [t] |}.

Definition start_command (p : Panel) (command label : str)
    (w : WireGuardToggle) : WireGuardToggle :=
  let w := set_log [] w in
  let w := append_log (py "<span style='color:#569cd6;'>$ " ++ label
                       ++ py "</span>") w in
  let w := set_status None (status_running label) w in
  let w := set_status_style (py "#d4d4d4") w in
  let w := set_buttons_enabled p false w in
  launch {| thread_command := command; thread_label := label |} w.

Definition _on_done (p : Panel) (ok : bool) (message : StatusText)
    (w : WireGuardToggle) : WireGuardToggle :=
  set_buttons_enabled p true (set_status (Some ok) message w).

(** The button actions. [ping] and [config] open a terminal of their own
    and leave the window as it is. *)
Definition tunnel_up p := start_command p (py "sudo awg-quick up awg0") (py "Tunnel UP").
Definition tunnel_down p := start_command p (py "sudo awg-quick down awg0") (py "Tunnel DOWN").
Definition my_ip p := start_command p (py "curl ip.network/more") (py "My IP").
Definition show_status p := start_command p (py "sudo awg show") (py "Status").
Definition ping (w : WireGuardToggle) : WireGuardToggle := w.
Definition config (w : WireGuardToggle) : WireGuardToggle := w.

(** [btn.clicked.connect(...)]. *)
Definition slot (p : Panel) (b : button) : WireGuardToggle -> WireGuardToggle :=
  match b with
  | btn_up => tunnel_up p
  | btn_down => tunnel_down p
  | btn_myip => my_ip p
  | btn_status => show_status p
  | btn_ping => ping
  | btn_config => config
  end.

(** What the main loop of the window handles: a click, or a signal of the
    [n]-th thread in flight.  A button that is disabled, or that the window
    does not have, sends no [clicked]. *)
Inductive ui_event : Type :=
| clicked (b : button)
| from_thread (n : nat) (ev : Signal).

Fixpoint remove_nth {A} (n : nat) (l : list A) : list A :=
  match n, l with
  | _, [] => []
  | O, _ :: l' => l'
  | S n', x :: l' => x :: remove_nth n' l'
  end.

Definition finished (n : nat) (w : WireGuardToggle) : WireGuardToggle :=
  {| btn_enabled := btn_enabled w;
     status_color := status_color w;
     status_text := status_text w;
     log_box := log_box w;
     _thread := _thread w;
     in_flight := remove_nth n (in_flight w) |}.

Definition handle (p : Panel) (w : WireGuardToggle) (ev : ui_event)
    : WireGuardToggle :=
  match ev with
  | clicked b =>
      if existsb (button_eqb b) (buttons p) && btn_enabled w b
      then slot p b w else w
  | from_thread n sig =>
      match nth_error (in_flight w) n with
      | None => w
      | Some t =>
          match sig with
          | output_ready line => append_log line w
          | finished_ok =>
              finished n (_on_done p true (status_completed (thread_label t)) w)
          | finished_err err =>
              finished n (_on_done p false (status_failed (thread_label t) err) w)
          end
      end
  end.

Definition main_loop (p : Panel) (evs : list ui_event) : WireGuardToggle :=
  fold_left (handle p) evs init.

(** ** Notions the properties are stated with *)

(** A line terminator of the loop of [togglev2.py]: [ch in ("\n", "\r")]. *)
Definition is_terminator (ch : ascii) : bool := Ascii.eqb ch LF || Ascii.eqb ch CR.

Definition terminator_free (s : str) : bool :=
  forallb (fun c => negb (is_terminator c)) s.

(** What one flush of the buffer of [togglev2.py] hands to the observer. *)
Definition flushed (buf : str) : list str :=
  if truthy (sanitize buf) then [sanitize buf] else [].

(** The Line Framer as the specification words it: characters accumulate in
    a buffer; a terminator flushes the buffer as a raw line and resets it;
    the end of the stream flushes what is left; an empty buffer is never
    flushed. *)
Module LineFramer.

Definition flush (buffer : str) : list str :=
  if truthy buffer then [buffer] else [].

Fixpoint frame (buffer : str) (stream : str) : list str :=
  match stream with
  | [] => flush buffer
  | c :: rest =>
      if is_terminator c then flush buffer ++ frame [] rest
      else frame (buffer ++ [c]) rest
  end.

End LineFramer.

(** The loop of [togglev2.py] fed with the output in chunks: each call of
    [read(1)] takes the next character of the current chunk, and the next
    chunk once it is used up; between two chunks the loop holds nothing but
    [buf]. *)
Fixpoint read_chunks (buf : str) (chunks : list str) : M str :=
  match chunks with
  | [] => ret buf
  | chunk :: rest =>
      (buf' <- togglev2.read_loop buf (map Char chunk) ;;
       read_chunks buf' rest)%thread
  end.

Definition lines_of_chunks (chunks : list str) : list str :=
  lines_of (signals (buf <- read_chunks [] chunks ;;
                     if truthy buf then togglev2.emit_line buf else ret tt)%thread).

(** A raw line cut into plain text and CSI sequences
    [ESC [ parameter-bytes intermediate-bytes final-byte]. *)
Inductive piece : Type :=
| Text (t : str)
| CSI (params inters : str) (final : ascii).

Definition render_piece (p : piece) : str :=
  match p with
  | Text t => t
  | CSI ps is_ f => ESC :: "["%char :: ps ++ is_ ++ [f]
  end.

Definition render (ps : list piece) : str := flat_map render_piece ps.

(** The characters outside the escape sequences, in order. *)
Definition plain_text (ps : list piece) : str :=
  flat_map (fun p => match p with Text t => t | CSI _ _ _ => [] end) ps.

Definition parameter_bytes : re.charset := [("0"%char, "?"%char)].
Definition intermediate_bytes : re.charset := [(" "%char, "/"%char)].
Definition final_bytes : re.charset := [("@"%char, "~"%char)].

Definition no_ESC (s : str) : bool := forallb (fun c => negb (Ascii.eqb c ESC)) s.

(** Text without ESC; a CSI sequence with bytes of the three ranges. *)
Definition well_formed (p : piece) : bool :=
  match p with
  | Text t => no_ESC t
  | CSI ps is_ f =>
      forallb (re.in_set parameter_bytes) ps
      && forallb (re.in_set intermediate_bytes) is_
      && re.in_set final_bytes f
  end.

Definition is_CSI (p : piece) : bool :=
  match p with Text _ => false | CSI _ _ _ => true end.

(** No white space at the start, and none at the end. *)
Definition no_leading_space (l : str) : bool :=
  match l with [] => true | c :: _ => negb (Py.isspace c) end.

Definition no_outer_space (l : str) : bool :=
  no_leading_space l && no_leading_space (rev l).

(** The lines of a stream: what stands between two ["\n"], before the first
    and after the last. *)
Fixpoint split_lines (cur : str) (s : str) : list str :=
  match s with
  | [] => [cur]
  | c :: t =>
      if Ascii.eqb c LF then cur :: split_lines [] t
      else split_lines (cur ++ [c]) t
  end.

(** A line without CR, without ESC and without white space around it. *)
Definition tidy (l : str) : bool :=
  negb (existsb (Ascii.eqb CR) l) && no_ESC l && no_outer_space l.

(** The emitted lines, each followed by ["\n"] again. *)
Definition reinsert (ls : list str) : str := flat_map (fun l => l ++ [LF]) ls.

(** A stream without the terminators at its end. *)
Definition chomp (s : str) : str := rev (Py.dropwhile is_terminator (rev s)).

(** A line the loop hands over as it is: not empty, no terminator inside,
    left alone by [strip_ansi] and by [strip]. *)
Definition kept (l : str) : bool :=
  truthy l && terminator_free l && no_ESC l && no_outer_space l.

(** The first read of the output that raises. *)
Fixpoint first_error (out : list read_result) : option PyException :=
  match out with
  | [] => None
  | Char _ :: out' => first_error out'
  | ReadError e :: _ => Some e
  end.

(** The terminal signal a run has to end with: the launch error, else the
    first read error, else the error of [wait], else the exit status. *)
Definition outcome (sh : Shell) (command : str) : Signal :=
  match sh command with
  | inl e => finished_err (str_of_exc e)
  | inr process =>
      match first_error (stdout process) with
      | Some e => finished_err (str_of_exc e)
      | None =>
          match wait process with
          | inl e => finished_err (str_of_exc e)
          | inr returncode =>
              if (returncode =? 0)%Z then finished_ok
              else finished_err (py "Exit code " ++ Py.str_of_int returncode)
          end
      end
  end.

(** ** Auxiliary functions of the proofs *)

(** The loop over a stream that is read without error, as the list of lines
    it emits and the buffer it ends with. *)
Fixpoint scan (buf : str) (s : str) : list str * str :=
  match s with
  | [] => ([], buf)
  | c :: t =>
      if is_terminator c then
        let (ls, b) := scan [] t in (flushed buf ++ ls, b)
      else scan (buf ++ [c]) t
  end.

(** The lines emitted from a given state of the buffer. *)
Definition lines_from (buf : str) (s : str) : list str :=
  fst (scan buf s) ++ flushed (snd (scan buf s)).

(** What the body of the [for] of [wireguard_toggle.py] hands to the
    observer for one line of the iteration. *)
Definition body_lines (line : str) : list str :=
  if truthy (Py.rstrip_char LF line) then [Py.rstrip_char LF line] else [].

(** The lines the iteration of [wireguard_toggle.py] emits from a given
    state of the pending line. *)
Definition iter_lines_from (pending : str) (s : str) : list str :=
  flat_map body_lines (fst (wireguard_toggle.iter pending (map Char s))).

(** The buttons whose slot calls [start_command]. *)
Definition starts (b : button) : bool :=
  match b with
  | btn_up | btn_down | btn_myip | btn_status => true
  | btn_ping | btn_config => false
  end.

(** All the buttons that [set_buttons_enabled] switches are disabled. *)
Definition gated (p : Panel) (w : WireGuardToggle) : bool :=
  forallb (fun b => negb (btn_enabled w b)) (switched p).

(** All of them are enabled. *)
Definition open_ (p : Panel) (w : WireGuardToggle) : bool :=
  forallb (btn_enabled w) (switched p).

(** What holds of the window whatever the main loop has handled: nothing is
    in flight and the buttons are enabled, or one thread is in flight and
    the buttons are disabled. *)
Definition single_flight (p : Panel) (w : WireGuardToggle) : Prop :=
  (in_flight w = [] /\ open_ p w = true)
  \/ ((exists t, in_flight w = [t]) /\ gated p w = true).

(** A second start while the first command is running: one line of output
    was logged, then [start_command] is called again. *)
Definition started_twice (p : Panel) : WireGuardToggle * WireGuardToggle :=
  let w := append_log (py "[#] ip link add awg0")
             (start_command p (py "sudo awg-quick up awg0") (py "Tunnel UP")
                init) in
  (w, start_command p (py "sudo awg show") (py "Status") w).

(** What the second start does: the window changes, the log is cleared down
    to the new header, [_thread] is replaced, and a second thread is started
    while the first has not finished. *)
Definition starts_again (p : Panel) : Prop :=
  let (w, w') := started_twice p in
  execution_state w = Running
  /\ w' <> w
  /\ List.length (log_box w) = 2 /\ List.length (log_box w') = 1
  /\ _thread w = Some {| thread_command := py "sudo awg-quick up awg0";
                         thread_label := py "Tunnel UP" |}
  /\ _thread w' = Some {| thread_command := py "sudo awg show";
                          thread_label := py "Status" |}
  /\ in_flight w
     = [{| thread_command := py "sudo awg-quick up awg0";
           thread_label := py "Tunnel UP" |}]
  /\ in_flight w'
     = [{| thread_command := py "sudo awg-quick up awg0";
           thread_label := py "Tunnel UP" |};
        {| thread_command := py "sudo awg show";
           thread_label := py "Status" |}].

(** ** Notions of the further properties *)

(** [a] is [b] with some of its characters left out. *)
Inductive Subseq : str -> str -> Prop :=
| Subseq_nil : Subseq [] []
| Subseq_skip (c : ascii) (a b : str) : Subseq a b -> Subseq a (c :: b)
| Subseq_keep (c : ascii) (a b : str) : Subseq a b -> Subseq (c :: a) (c :: b).

(** The set [[@-Z\\-_]] of the first alternative of [ANSI_ESCAPE]. *)
Definition single_escapes : re.charset :=
  [("@"%char, "Z"%char); ("\"%char, "_"%char)].

(** No character of [s] is a final byte of a CSI sequence. *)
Definition no_final (s : str) : bool :=
  forallb (fun c => negb (re.in_set final_bytes c)) s.

Definition LF_free (s : str) : bool :=
  forallb (fun c => negb (Ascii.eqb c LF)) s.

(** Neither CR nor ESC occurs in [s]. *)
Definition no_CR_no_ESC (s : str) : bool :=
  forallb (fun c => negb (Ascii.eqb c CR) && negb (Ascii.eqb c ESC)) s.

(** The entry [append_log] adds to the log for a line. *)
Definition span_of (line : str) : span :=
  {| color := tag_color (classify line); text := line |}.

(** The header [start_command] logs for a label. *)
Definition header (label : str) : str :=
  py "<span style='color:#569cd6;'>$ " ++ label ++ py "</span>".

(** The main loop handling, in order, the signals of the first thread in
    flight. *)
Definition deliver (p : Panel) (sigs : list Signal) (w : WireGuardToggle)
    : WireGuardToggle :=
  fold_left (handle p) (map (from_thread 0) sigs) w.

(** What the window shows of an outcome: the text and the colour of the
    status label. *)
Definition status_of (label : str) (t : Signal) : StatusText * str :=
  match t with
  | finished_err err => (status_failed label err, py "#e74c3c")
  | _ => (status_completed label, py "#27ae60")
  end.

(** The window after the signals [sigs] of the command started last were
    handled: nothing is in flight, the buttons are enabled again, the log
    holds the header and the lines in the order of their arrival, and the
    status label shows the outcome. *)
Definition back_to_idle (p : Panel) (label : str) (sigs : list Signal)
    (w1 : WireGuardToggle) : Prop :=
  let w2 := deliver p sigs w1 in
  execution_state w2 = Idle
  /\ open_ p w2 = true
  /\ log_box w2 = span_of (header label) :: map span_of (lines_of sigs)
  /\ (status_text w2, status_color w2) = status_of label (last sigs finished_ok).

(** The log is empty and nothing is in flight as long as no command was
    started; from then on the log starts with the header of the command
    started last. *)
Definition log_has_header (w : WireGuardToggle) : Prop :=
  match _thread w with
  | None => log_box w = [] /\ in_flight w = []
  | Some t => exists entries,
                log_box w = span_of (header (thread_label t)) :: entries
  end.

(** * Properties *)

(** ** Emitting and sequencing *)

Lemma bind_inr {A B} (evs : list Signal) (a : A) (k : A -> M B) :
  bind (evs, inr a) k = (evs ++ fst (k a), snd (k a)).
Proof. unfold bind. destruct (k a); reflexivity. Qed.

Lemma lines_of_app (a b : list Signal) :
  lines_of (a ++ b) = lines_of a ++ lines_of b.
Proof.
  induction a as [|ev a IH]; simpl; [reflexivity|].
  destruct ev; simpl; now rewrite IH.
Qed.

Lemma lines_of_output_ready (ls : list str) :
  lines_of (map output_ready ls) = ls.
Proof. induction ls as [|l ls IH]; simpl; congruence. Qed.

Lemma emit_line_flushed (buf : str) :
  togglev2.emit_line buf = (map output_ready (flushed buf), inr tt).
Proof.
  unfold togglev2.emit_line, flushed.
  destruct (truthy (sanitize buf)); reflexivity.
Qed.

(** The flush after the loop: an empty buffer emits nothing either way. *)
Lemma final_flush (buf : str) :
  (if truthy buf then togglev2.emit_line buf else ret tt)
  = (map output_ready (flushed buf), inr tt).
Proof.
  destruct buf as [|c buf]; [reflexivity|]. simpl truthy. apply emit_line_flushed.
Qed.

(** ** The loop of [togglev2.py] *)

(** The loop emits lines only; it raises the first read error, and returns
    its buffer when there is none. *)
Lemma read_loop_shape (out : list read_result) : forall buf,
  exists ls buf',
    togglev2.read_loop buf out
    = (map output_ready ls,
       match first_error out with Some e => inl e | None => inr buf' end).
Proof.
  induction out as [|r out IH]; intro buf; simpl.
  - exists [], buf. reflexivity.
  - destruct r as [ch|e].
    + destruct (Ascii.eqb ch LF || Ascii.eqb ch CR).
      * destruct (IH []) as (ls & buf' & E).
        exists (flushed buf ++ ls), buf'.
        rewrite emit_line_flushed, bind_inr, E. simpl. now rewrite map_app.
      * apply IH.
    + exists [], buf. reflexivity.
Qed.

Lemma read_loop_scan (s : str) : forall buf,
  togglev2.read_loop buf (map Char s)
  = (map output_ready (fst (scan buf s)), inr (snd (scan buf s))).
Proof.
  induction s as [|c s IH]; intro buf; simpl; [reflexivity|].
  unfold is_terminator. destruct (Ascii.eqb c LF || Ascii.eqb c CR).
  - rewrite emit_line_flushed, bind_inr, IH. simpl.
    destruct (scan [] s) as [ls b]. simpl. now rewrite map_app.
  - apply IH.
Qed.

Lemma lines_lines_from (s : str) : togglev2.lines s = lines_from [] s.
Proof.
  unfold togglev2.lines, lines_from.
  rewrite read_loop_scan, bind_inr, final_flush. simpl.
  unfold signals. simpl.
  now rewrite lines_of_app, !lines_of_output_ready.
Qed.

Lemma lines_from_nil (buf : str) : lines_from buf [] = flushed buf.
Proof. reflexivity. Qed.

Lemma lines_from_cons (buf : str) (c : ascii) (s : str) :
  lines_from buf (c :: s)
  = if is_terminator c then flushed buf ++ lines_from [] s
    else lines_from (buf ++ [c]) s.
Proof.
  unfold lines_from. simpl. destruct (is_terminator c); [|reflexivity].
  destruct (scan [] s) as [ls b]. simpl. now rewrite app_assoc.
Qed.

Lemma lines_from_raw (raw : str) : forall buf,
  terminator_free raw = true ->
  lines_from buf raw = flushed (buf ++ raw).
Proof.
  induction raw as [|c raw IH]; intros buf H.
  - now rewrite lines_from_nil, app_nil_r.
  - simpl in H. apply andb_true_iff in H as [Hc H].
    rewrite lines_from_cons. apply negb_true_iff in Hc. rewrite Hc.
    rewrite IH by assumption. now rewrite <- app_assoc.
Qed.

Lemma lines_from_app (raw : str) (t : ascii) (rest : str) : forall buf,
  terminator_free raw = true -> is_terminator t = true ->
  lines_from buf (raw ++ t :: rest) = flushed (buf ++ raw) ++ lines_from [] rest.
Proof.
  induction raw as [|c raw IH]; intros buf H Ht.
  - simpl. now rewrite lines_from_cons, Ht, app_nil_r.
  - simpl in H. apply andb_true_iff in H as [Hc H].
    simpl. rewrite lines_from_cons. apply negb_true_iff in Hc. rewrite Hc.
    rewrite IH by assumption. now rewrite <- app_assoc.
Qed.

(** Splitting the stream anywhere: the second part resumes with the buffer
    the first part has left. *)
Lemma scan_app (a b : str) : forall buf,
  scan buf (a ++ b)
  = (fst (scan buf a) ++ fst (scan (snd (scan buf a)) b),
     snd (scan (snd (scan buf a)) b)).
Proof.
  induction a as [|c a IH]; intro buf; simpl.
  - now destruct (scan buf b).
  - destruct (is_terminator c).
    + rewrite IH. destruct (scan [] a) as [ls bf]. simpl.
      now rewrite app_assoc.
    + apply IH.
Qed.

Lemma lines_from_frame (s : str) : forall buf,
  lines_from buf s = filter truthy (map sanitize (LineFramer.frame buf s)).
Proof.
  assert (F : forall buf,
    flushed buf = filter truthy (map sanitize (LineFramer.flush buf))).
  { intro buf. unfold LineFramer.flush, flushed.
    destruct buf as [|c buf]; [reflexivity|]. simpl.
    destruct (truthy (sanitize (c :: buf))); reflexivity. }
  induction s as [|c s IH]; intro buf.
  - rewrite lines_from_nil. simpl. apply F.
  - rewrite lines_from_cons. simpl. destruct (is_terminator c).
    + now rewrite map_app, filter_app, <- F, <- IH.
    + apply IH.
Qed.

(** ** The iteration of [wireguard_toggle.py] *)

Lemma body_eq (line : str) :
  wireguard_toggle.body line = (map output_ready (body_lines line), inr tt).
Proof.
  unfold wireguard_toggle.body, body_lines.
  destruct (truthy (Py.rstrip_char LF line)); reflexivity.
Qed.

Lemma for_each_eq (ls : list str) :
  wireguard_toggle.for_each ls
  = (map output_ready (flat_map body_lines ls), inr tt).
Proof.
  induction ls as [|l ls IH]; simpl; [reflexivity|].
  rewrite body_eq, bind_inr, IH. simpl. now rewrite map_app.
Qed.

(** The iteration ends with the first read error, if there is one. *)
Lemma iter_error (out : list read_result) : forall pending,
  snd (wireguard_toggle.iter pending out) = first_error out.
Proof.
  induction out as [|r out IH]; intro pending; simpl; [reflexivity|].
  destruct r as [ch|e]; [|reflexivity].
  destruct (Ascii.eqb ch LF).
  - specialize (IH []). destruct (wireguard_toggle.iter [] out). exact IH.
  - apply IH.
Qed.

Lemma for_line_in_shape (out : list read_result) :
  exists ls,
    wireguard_toggle.for_line_in out
    = (map output_ready ls,
       match first_error out with Some e => inl e | None => inr tt end).
Proof.
  unfold wireguard_toggle.for_line_in.
  pose proof (iter_error out []) as E.
  destruct (wireguard_toggle.iter [] out) as [ls e]. simpl in E. subst e.
  exists (flat_map body_lines ls).
  rewrite for_each_eq, bind_inr.
  destruct (first_error out); simpl; now rewrite app_nil_r.
Qed.

(** ** The end of a run *)

Lemma report_eq (returncode : Z) :
  report returncode
  = ([if (returncode =? 0)%Z then finished_ok
      else finished_err (py "Exit code " ++ Py.str_of_int returncode)], inr tt).
Proof. unfold report. destruct (returncode =? 0)%Z; reflexivity. Qed.

Lemma outcome_terminal (sh : Shell) (command : str) :
  is_terminal (outcome sh command) = true.
Proof.
  unfold outcome.
  destruct (sh command) as [e|p]; [reflexivity|].
  destruct (first_error (stdout p)); [reflexivity|].
  destruct (wait p) as [e|rc]; [reflexivity|].
  destruct (rc =? 0)%Z; reflexivity.
Qed.

(** A run of [togglev2.py]: lines, then the outcome; nothing escapes. *)
Lemma togglev2_run_shape (sh : Shell) (self : togglev2.CommandThread) :
  exists ls,
    togglev2.run sh self
    = (map output_ready ls ++ [outcome sh (togglev2.command self)], inr tt).
Proof.
  unfold togglev2.run, outcome, call.
  destruct (sh (togglev2.command self)) as [e|p].
  - exists []. reflexivity.
  - rewrite bind_inr. simpl fst. simpl snd. simpl app.
    destruct (read_loop_shape (stdout p) []) as (ls & buf' & E). rewrite E.
    destruct (first_error (stdout p)) as [e|].
    + exists ls. reflexivity.
    + rewrite bind_inr, final_flush, bind_inr. simpl fst. simpl snd.
      exists (ls ++ flushed buf').
      destruct (wait p) as [e|rc].
      * simpl. now rewrite !app_nil_r, map_app.
      * rewrite report_eq. simpl. now rewrite map_app, <- app_assoc.
Qed.

(** A run of [wireguard_toggle.py], likewise. *)
Lemma wireguard_toggle_run_shape (sh : Shell)
    (self : wireguard_toggle.CommandThread) :
  exists ls,
    wireguard_toggle.run sh self
    = (map output_ready ls ++ [outcome sh (wireguard_toggle.command self)],
       inr tt).
Proof.
  unfold wireguard_toggle.run, outcome, call.
  destruct (sh (wireguard_toggle.command self)) as [e|p].
  - exists []. reflexivity.
  - rewrite bind_inr. simpl fst. simpl snd. simpl app.
    destruct (for_line_in_shape (stdout p)) as (ls & E). rewrite E.
    exists ls.
    destruct (first_error (stdout p)) as [e|].
    + reflexivity.
    + rewrite bind_inr. simpl fst. simpl snd.
      destruct (wait p) as [e|rc].
      * simpl. now rewrite !app_nil_r.
      * rewrite report_eq. simpl. reflexivity.
Qed.

(** C1. In both files, every run of [CommandThread.run] emits a sequence of
    [output_ready] signals followed by exactly one terminal signal
    ([finished_ok] or [finished_err]), which is its last signal; no
    exception leaves [run]: a launch error, the first read error or the
    error of [wait] is what the terminal [finished_err] carries. *)
Theorem run_emits_one_terminal_signal_last :
  forall (sh : Shell) (command : str),
    (exists ls,
        togglev2.run sh {| togglev2.command := command |}
        = (map output_ready ls ++ [outcome sh command], inr tt))
    /\ (exists ls,
        wireguard_toggle.run sh {| wireguard_toggle.command := command |}
        = (map output_ready ls ++ [outcome sh command], inr tt))
    /\ is_terminal (outcome sh command) = true
    /\ escaped (togglev2.run sh {| togglev2.command := command |}) = None
    /\ escaped (wireguard_toggle.run sh {| wireguard_toggle.command := command |})
       = None
    /\ List.length (filter is_terminal
         (signals (togglev2.run sh {| togglev2.command := command |}))) = 1
    /\ List.length (filter is_terminal
         (signals (wireguard_toggle.run sh {| wireguard_toggle.command := command |})))
       = 1.
Proof.
  intros sh command.
  assert (N : forall ls ev, is_terminal ev = true ->
            List.length (filter is_terminal (map output_ready ls ++ [ev])) = 1).
  { intros ls ev H. rewrite filter_app. simpl. rewrite H.
    induction ls as [|l ls IH]; simpl; [reflexivity | exact IH]. }
  pose proof (outcome_terminal sh command) as T.
  destruct (togglev2_run_shape sh {| togglev2.command := command |}) as (l2 & E2).
  destruct (wireguard_toggle_run_shape sh {| wireguard_toggle.command := command |})
    as (l1 & E1).
  simpl in E1, E2.
  repeat split.
  - exists l2. exact E2.
  - exists l1. exact E1.
  - exact T.
  - now rewrite E2.
  - now rewrite E1.
  - rewrite E2. apply N, T.
  - rewrite E1. apply N, T.
Qed.


(** C4. In both files: when [subprocess.Popen] raises, the run emits the
    single signal [finished_err(str(e))] and no line; when the output is
    read to its end and [wait] returns, the run ends with [finished_ok] if
    the exit status is 0 and with [finished_err("Exit code N")] if it is
    N <> 0, so that it ends with [finished_ok] exactly when the status is
    0. *)
Theorem run_outcome_of_launch_and_exit_code :
  forall (sh : Shell) (command : str),
    (forall e, sh command = inl e ->
       togglev2.run sh {| togglev2.command := command |}
       = ([finished_err (str_of_exc e)], inr tt)
       /\ wireguard_toggle.run sh {| wireguard_toggle.command := command |}
          = ([finished_err (str_of_exc e)], inr tt))
    /\ (forall process returncode,
          sh command = inr process ->
          first_error (stdout process) = None ->
          wait process = inr returncode ->
          let last :=
            if (returncode =? 0)%Z then finished_ok
            else finished_err (py "Exit code " ++ Py.str_of_int returncode) in
          (exists ls,
              togglev2.run sh {| togglev2.command := command |}
              = (map output_ready ls ++ [last], inr tt))
          /\ (exists ls,
              wireguard_toggle.run sh {| wireguard_toggle.command := command |}
              = (map output_ready ls ++ [last], inr tt))
          /\ (last = finished_ok <-> returncode = 0%Z)).
Proof.
  intros sh command. split.
  - intros e H. unfold togglev2.run, wireguard_toggle.run. simpl.
    rewrite H. split; reflexivity.
  - intros p rc Hp Hr Hw last.
    assert (O : outcome sh command = last).
    { unfold outcome. now rewrite Hp, Hr, Hw. }
    repeat split.
    + destruct (togglev2_run_shape sh {| togglev2.command := command |})
        as (ls & E).
      exists ls. simpl in E. now rewrite E, O.
    + destruct (wireguard_toggle_run_shape sh
                  {| wireguard_toggle.command := command |}) as (ls & E).
      exists ls. simpl in E. now rewrite E, O.
    + subst last. destruct (Z.eqb_spec rc 0); [easy | discriminate].
    + intro E. subst last. subst rc. reflexivity.
Qed.

(** The command [false]: no output, exit status 1. *)
Lemma run_outcome_of_launch_and_exit_code_witness :
  let sh : Shell := fun _ => inr {| stdout := []; wait := inr 1%Z |} in
  (exists ls,
      togglev2.run sh {| togglev2.command := py "false" |}
      = (map output_ready ls ++ [finished_err (py "Exit code 1")], inr tt))
  /\ (exists ls,
      wireguard_toggle.run sh {| wireguard_toggle.command := py "false" |}
      = (map output_ready ls ++ [finished_err (py "Exit code 1")], inr tt))
  /\ (finished_err (py "Exit code 1") = finished_ok <-> 1%Z = 0%Z).
Proof.
  intro sh.
  exact (proj2 (run_outcome_of_launch_and_exit_code sh (py "false"))
           {| stdout := []; wait := inr 1%Z |} 1%Z eq_refl eq_refl eq_refl).
Defined.

(** ** Framing *)

(** C3. The loop of [togglev2.py] frames its input as the Line Framer is
    specified, each raw line going through the sanitizing step before it is
    emitted: for a raw line [raw] without terminator and terminators [t1],
    [t2],
    - a terminator flushes the buffer: the lines of [raw ++ t1 :: rest] are
      the flush of [raw] followed by the lines of [rest];
    - the end of the stream flushes what is left: the lines of [raw] alone
      are the flush of [raw];
    - an empty line is dropped: the lines of [t1 :: rest] are those of
      [rest];
    - consecutive terminators collapse: the lines of
      [before ++ t1 :: t2 :: rest] are those of [before ++ t1 :: rest];
    - for every stream, the emitted lines are the non-empty sanitized raw
      lines of [LineFramer.frame], in order, and none of these raw lines is
      empty or contains a terminator. *)
Theorem line_framer_flushes_on_terminator_and_at_end :
  forall (raw rest before : str) (t1 t2 : ascii),
    terminator_free raw = true ->
    is_terminator t1 = true ->
    is_terminator t2 = true ->
    togglev2.lines (raw ++ t1 :: rest) = flushed raw ++ togglev2.lines rest
    /\ togglev2.lines raw = flushed raw
    /\ togglev2.lines (t1 :: rest) = togglev2.lines rest
    /\ togglev2.lines (before ++ t1 :: t2 :: rest)
       = togglev2.lines (before ++ t1 :: rest)
    /\ (forall s,
          togglev2.lines s
          = filter truthy (map sanitize (LineFramer.frame [] s)))
    /\ (forall s,
          Forall (fun l => truthy l = true /\ terminator_free l = true)
                 (LineFramer.frame [] s)).
Proof.
  intros raw rest before t1 t2 Hraw H1 H2.
  rewrite !lines_lines_from.
  split; [|split; [|split; [|split; [|split]]]].
  - now rewrite lines_from_app.
  - now rewrite lines_from_raw.
  - now rewrite lines_from_cons, H1.
  - unfold lines_from. rewrite !scan_app. simpl. rewrite H1, H2.
    destruct (scan [] rest) as [ls b]. reflexivity.
  - intro s. rewrite lines_lines_from. apply lines_from_frame.
  - intro s.
    assert (G : forall s buf, terminator_free buf = true ->
      Forall (fun l => truthy l = true /\ terminator_free l = true)
             (LineFramer.frame buf s)).
    { clear. induction s as [|c s IH]; intros buf Hb; simpl.
      - unfold LineFramer.flush. destruct buf; [constructor|].
        constructor; [now split | constructor].
      - destruct (is_terminator c) eqn:Hc.
        + apply Forall_app. split; [|now apply IH].
          unfold LineFramer.flush. destruct buf; [constructor|].
          constructor; [now split | constructor].
        + apply IH. unfold terminator_free. rewrite forallb_app.
          unfold terminator_free in Hb. rewrite Hb. simpl. now rewrite Hc. }
    now apply G.
Qed.

Lemma line_framer_flushes_on_terminator_and_at_end_witness :
  togglev2.lines (py "up" ++ LF :: py "ok")
  = flushed (py "up") ++ togglev2.lines (py "ok")
  /\ togglev2.lines (py "up") = flushed (py "up")
  /\ togglev2.lines (LF :: py "ok") = togglev2.lines (py "ok")
  /\ togglev2.lines (py "a" ++ LF :: CR :: py "ok")
     = togglev2.lines (py "a" ++ LF :: py "ok")
  /\ (forall s,
        togglev2.lines s
        = filter truthy (map sanitize (LineFramer.frame [] s)))
  /\ (forall s,
        Forall (fun l => truthy l = true /\ terminator_free l = true)
               (LineFramer.frame [] s)).
Proof.
  exact (line_framer_flushes_on_terminator_and_at_end
           (py "up") (py "ok") (py "a") LF CR eq_refl eq_refl eq_refl).
Defined.

(** ** Chunks *)

Lemma read_chunks_scan (chunks : list str) : forall buf,
  read_chunks buf chunks
  = (map output_ready (fst (scan buf (List.concat chunks))),
     inr (snd (scan buf (List.concat chunks)))).
Proof.
  induction chunks as [|chunk chunks IH]; intro buf; simpl; [reflexivity|].
  rewrite read_loop_scan, bind_inr, IH, scan_app. simpl.
  now rewrite map_app.
Qed.

Lemma lines_of_chunks_concat (chunks : list str) :
  lines_of_chunks chunks = togglev2.lines (List.concat chunks).
Proof.
  unfold lines_of_chunks. rewrite read_chunks_scan, bind_inr, final_flush.
  rewrite lines_lines_from. unfold lines_from, signals. simpl.
  now rewrite lines_of_app, !lines_of_output_ready.
Qed.

Lemma concat_singletons (s : str) : List.concat (map (fun c => [c]) s) = s.
Proof. induction s as [|c s IH]; simpl; congruence. Qed.

(** C7. The lines the loop of [togglev2.py] emits depend on the
    concatenation of the chunks only: two ways of cutting the same stream
    give the same lines; one character at a time gives the same lines as a
    single chunk; and the stream X CR LF Y LF, one character at a time or
    at once, gives the lines X and Y. *)
Theorem lines_do_not_depend_on_chunking :
  (forall chunks chunks',
      List.concat chunks = List.concat chunks' ->
      lines_of_chunks chunks = lines_of_chunks chunks')
  /\ (forall chunks, lines_of_chunks chunks = togglev2.lines (List.concat chunks))
  /\ (forall s, lines_of_chunks (map (fun c => [c]) s) = lines_of_chunks [s])
  /\ lines_of_chunks [py "X"; [CR]; [LF]; py "Y"; [LF]] = [py "X"; py "Y"]
  /\ lines_of_chunks [py "X" ++ [CR; LF] ++ py "Y" ++ [LF]] = [py "X"; py "Y"].
Proof.
  split; [|split; [|split; [|split]]].
  - intros c c' H. now rewrite !lines_of_chunks_concat, H.
  - apply lines_of_chunks_concat.
  - intro s. rewrite !lines_of_chunks_concat, concat_singletons. simpl.
    now rewrite app_nil_r.
  - vm_compute. reflexivity.
  - vm_compute. reflexivity.
Qed.

(** ** The string methods *)

Lemma startswith_spec (p : str) : forall s,
  Py.startswith s p = true <-> exists t, s = p ++ t.
Proof.
  induction p as [|c p IH]; intros [|x s]; simpl.
  - split; [intros _; now exists [] | reflexivity].
  - split; [intros _; now exists (x :: s) | reflexivity].
  - split; [discriminate | intros [t H]; discriminate].
  - rewrite andb_true_iff, Ascii.eqb_eq, IH. split.
    + intros [-> [t ->]]. now exists t.
    + intros [t H]. injection H as -> ->. split; [reflexivity | now exists t].
Qed.

Lemma contains_spec (w : str) : forall s,
  Py.contains w s = true <-> exists a b, s = a ++ w ++ b.
Proof.
  induction s as [|c s IH]; cbn [Py.contains]; rewrite orb_true_iff, startswith_spec.
  - split.
    + intros [[t H]|H]; [|discriminate]. exists [], t. exact H.
    + intros (a & b & H). left. exists b.
      destruct a; [exact H | discriminate].
  - rewrite IH. split.
    + intros [[t H]|(a & b & H)].
      * exists [], t. exact H.
      * exists (c :: a), b. simpl. now rewrite H.
    + intros (a & b & H). destruct a as [|x a].
      * left. exists b. exact H.
      * right. injection H as _ H. now exists a, b.
Qed.

Lemma dropwhile_suffix (f : ascii -> bool) (x : str) :
  exists a, x = a ++ Py.dropwhile f x /\ forallb f a = true.
Proof.
  induction x as [|c x (a & E & F)]; simpl.
  - now exists [].
  - destruct (f c) eqn:Hc.
    + exists (c :: a). simpl. rewrite Hc, F. split; [now rewrite <- E | reflexivity].
    + now exists [].
Qed.

Lemma dropwhile_head (f : ascii -> bool) (x : str) :
  match Py.dropwhile f x with [] => True | c :: _ => f c = false end.
Proof.
  induction x as [|c x IH]; simpl; [exact I|].
  destruct (f c) eqn:Hc; [exact IH | exact Hc].
Qed.

Lemma dropwhile_id (x : str) :
  no_leading_space x = true -> Py.dropwhile Py.isspace x = x.
Proof.
  destruct x as [|c x]; simpl; [reflexivity|].
  intro H. apply negb_true_iff in H. now rewrite H.
Qed.

Lemma forallb_rev {A} (f : A -> bool) (l : list A) :
  forallb f (rev l) = forallb f l.
Proof.
  induction l as [|a l IH]; simpl; [reflexivity|].
  rewrite forallb_app, IH. simpl. rewrite andb_true_r. apply andb_comm.
Qed.

Lemma no_leading_space_dropwhile (x : str) :
  no_leading_space (Py.dropwhile Py.isspace x) = true.
Proof.
  pose proof (dropwhile_head Py.isspace x) as H.
  destruct (Py.dropwhile Py.isspace x); simpl; [reflexivity|].
  now rewrite H.
Qed.

Lemma no_leading_space_prefix (p q : str) :
  no_leading_space (p ++ q) = true -> no_leading_space p = true.
Proof. destruct p; [reflexivity | exact (fun H => H)]. Qed.

(** [strip] leaves a string without white space around it as it is. *)
Lemma strip_fixed (l : str) : no_outer_space l = true -> Py.strip l = l.
Proof.
  unfold no_outer_space, Py.strip, Py.lstrip, Py.rstrip.
  intro H. apply andb_true_iff in H as [H1 H2].
  rewrite (dropwhile_id (rev l) H2), rev_involutive. now apply dropwhile_id.
Qed.

(** What [strip] returns has no white space around it. *)
Lemma strip_no_outer_space (s : str) : no_outer_space (Py.strip s) = true.
Proof.
  unfold no_outer_space, Py.strip, Py.lstrip, Py.rstrip.
  rewrite no_leading_space_dropwhile. simpl.
  set (d := Py.dropwhile Py.isspace (rev s)).
  destruct (dropwhile_suffix Py.isspace (rev d)) as (a & E & _).
  apply (f_equal (@rev ascii)) in E.
  rewrite rev_involutive, rev_app_distr in E.
  apply (no_leading_space_prefix _ (rev a)). rewrite <- E.
  apply no_leading_space_dropwhile.
Qed.

Lemma strip_idempotent (s : str) : Py.strip (Py.strip s) = Py.strip s.
Proof. apply strip_fixed, strip_no_outer_space. Qed.

(** [strip] removes white space at both ends and nothing else. *)
Lemma strip_decomposition (s : str) :
  exists a b, s = a ++ Py.strip s ++ b
              /\ forallb Py.isspace a = true /\ forallb Py.isspace b = true.
Proof.
  unfold Py.strip, Py.lstrip, Py.rstrip.
  destruct (dropwhile_suffix Py.isspace (rev s)) as (b & Eb & Fb).
  set (d := Py.dropwhile Py.isspace (rev s)) in *.
  destruct (dropwhile_suffix Py.isspace (rev d)) as (a & Ea & Fa).
  exists a, (rev b). repeat split.
  - rewrite app_assoc, <- Ea, <- rev_app_distr, <- Eb. now rewrite rev_involutive.
  - exact Fa.
  - now rewrite forallb_rev.
Qed.

Lemma isspace_LF : Py.isspace LF = true.
Proof. reflexivity. Qed.

Lemma rstrip_LF_fixed (l : str) :
  no_leading_space (rev l) = true -> Py.rstrip_char LF l = l.
Proof.
  unfold Py.rstrip_char. intro H.
  destruct (rev l) as [|c r] eqn:E; cbn [Py.dropwhile no_leading_space] in *.
  - now rewrite <- (rev_involutive l), E.
  - destruct (Ascii.eqb_spec LF c) as [<-|_].
    + now rewrite isspace_LF in H.
    + now rewrite <- (rev_involutive l), E.
Qed.

Lemma rstrip_LF_snoc (l : str) :
  Py.rstrip_char LF (l ++ [LF]) = Py.rstrip_char LF l.
Proof.
  unfold Py.rstrip_char. rewrite rev_app_distr. reflexivity.
Qed.

(** ** The pattern [ANSI_ESCAPE] *)

Lemma in_range (lo hi c : ascii) :
  re.in_set [(lo, hi)] c = true <-> (ord lo <= ord c <= ord hi)%N.
Proof.
  unfold re.in_set. simpl. rewrite orb_false_r, andb_true_iff, !N.leb_le.
  reflexivity.
Qed.

Lemma not_in_range (lo hi c : ascii) :
  re.in_set [(lo, hi)] c = false <-> (ord c < ord lo \/ ord hi < ord c)%N.
Proof.
  rewrite <- not_true_iff_false, in_range. lia.
Qed.

Lemma ord_values :
  ord "0"%char = 48%N /\ ord "?"%char = 63%N /\ ord " "%char = 32%N
  /\ ord "/"%char = 47%N /\ ord "@"%char = 64%N /\ ord "~"%char = 126%N.
Proof. repeat split. Qed.

Lemma intermediate_not_parameter (c : ascii) :
  re.in_set intermediate_bytes c = true -> re.in_set parameter_bytes c = false.
Proof.
  unfold intermediate_bytes, parameter_bytes. rewrite in_range, not_in_range.
  destruct ord_values as (E0 & E1 & E2 & E3 & _). rewrite E0, E1, E2, E3. lia.
Qed.

Lemma final_not_parameter (c : ascii) :
  re.in_set final_bytes c = true -> re.in_set parameter_bytes c = false.
Proof.
  unfold final_bytes, parameter_bytes. rewrite in_range, not_in_range.
  destruct ord_values as (E0 & E1 & _ & _ & E4 & E5). rewrite E0, E1, E4, E5. lia.
Qed.

Lemma final_not_intermediate (c : ascii) :
  re.in_set final_bytes c = true -> re.in_set intermediate_bytes c = false.
Proof.
  unfold final_bytes, intermediate_bytes. rewrite in_range, not_in_range.
  destruct ord_values as (_ & _ & E2 & E3 & E4 & E5). rewrite E2, E3, E4, E5. lia.
Qed.

(** The greedy star first takes the whole run of characters of its set. *)
Lemma star_ends_greedy (cs : re.charset) (run rest : str) :
  forallb (re.in_set cs) run = true ->
  match rest with [] => True | c :: _ => re.in_set cs c = false end ->
  exists others, re.star_ends cs (run ++ rest) = rest :: others.
Proof.
  intros Hrun Hrest. induction run as [|c run IH]; simpl.
  - destruct rest as [|c rest]; simpl; [now exists [] |].
    rewrite Hrest. now exists [].
  - simpl in Hrun. apply andb_true_iff in Hrun as [Hc Hrun].
    rewrite Hc. destruct (IH Hrun) as (others & E). rewrite E.
    now exists (others ++ [c :: run ++ rest]).
Qed.

Lemma bracket_not_single :
  re.in_set [("@"%char, "Z"%char); ("\"%char, "_"%char)] "["%char = false.
Proof. reflexivity. Qed.

(** At a well-formed CSI sequence the pattern matches that sequence. *)
Lemma ends_CSI (ps is_ : str) (f : ascii) (rest : str) :
  well_formed (CSI ps is_ f) = true ->
  exists others,
    re.ends ANSI_ESCAPE (render_piece (CSI ps is_ f) ++ rest) = rest :: others.
Proof.
  cbn [well_formed render_piece]. intro H.
  apply andb_true_iff in H as [H Hf]. apply andb_true_iff in H as [Hp Hi].
  destruct (star_ends_greedy parameter_bytes ps (is_ ++ f :: rest) Hp)
    as (o1 & E1).
  { destruct is_ as [|i is_]; cbn [app].
    - now apply final_not_parameter.
    - cbn [forallb] in Hi. apply andb_true_iff in Hi as [Hi _].
      now apply intermediate_not_parameter. }
  destruct (star_ends_greedy intermediate_bytes is_ (f :: rest) Hi)
    as (o2 & E2).
  { now apply final_not_intermediate. }
  cbn [app]. rewrite <- !app_assoc. cbn [app].
  unfold ANSI_ESCAPE. fold parameter_bytes intermediate_bytes final_bytes.
  cbn [re.ends]. rewrite Ascii.eqb_refl. cbn [flat_map].
  rewrite bracket_not_single, Ascii.eqb_refl.
  cbn [flat_map app]. rewrite E1. cbn [flat_map]. rewrite E2.
  cbn [flat_map]. rewrite Hf. cbn [app].
  eexists. reflexivity.
Qed.

(** Anywhere else than at an ESC the pattern does not match. *)
Lemma match_len_not_ESC (c : ascii) (t : str) :
  Ascii.eqb c ESC = false -> re.match_len ANSI_ESCAPE (c :: t) = None.
Proof.
  intro H. unfold re.match_len, ANSI_ESCAPE. simpl. now rewrite H.
Qed.

Lemma sub_at_skip (p : re.pattern) (m rest : str) :
  re.sub_at p (List.length m) (m ++ rest) = re.sub_at p 0 rest.
Proof.
  induction m as [|c m IH]; simpl; [|exact IH].
  destruct rest; reflexivity.
Qed.

Lemma strip_ansi_text (t rest : str) :
  no_ESC t = true -> strip_ansi (t ++ rest) = t ++ strip_ansi rest.
Proof.
  unfold strip_ansi, re.sub_empty.
  induction t as [|c t IH]; intro H; [reflexivity|].
  simpl in H. apply andb_true_iff in H as [Hc H]. apply negb_true_iff in Hc.
  change ((c :: t) ++ rest) with (c :: (t ++ rest)).
  cbn [re.sub_at]. rewrite (match_len_not_ESC c _ Hc). now rewrite IH.
Qed.

Lemma strip_ansi_no_ESC (t : str) : no_ESC t = true -> strip_ansi t = t.
Proof.
  intro H. rewrite <- (app_nil_r t) at 1.
  rewrite strip_ansi_text by assumption. apply app_nil_r.
Qed.

Lemma strip_ansi_CSI (ps is_ : str) (f : ascii) (rest : str) :
  well_formed (CSI ps is_ f) = true ->
  strip_ansi (render_piece (CSI ps is_ f) ++ rest) = strip_ansi rest.
Proof.
  intro H. destruct (ends_CSI ps is_ f rest H) as (others & E).
  unfold strip_ansi, re.sub_empty.
  assert (L : re.match_len ANSI_ESCAPE (render_piece (CSI ps is_ f) ++ rest)
              = Some (S (List.length ("["%char :: ps ++ is_ ++ [f])))).
  { unfold re.match_len. rewrite E. f_equal. cbn [render_piece].
    rewrite length_app. cbn [List.length]. lia. }
  simpl render_piece in *.
  change ((ESC :: "["%char :: ps ++ is_ ++ [f]) ++ rest)
    with (ESC :: (("["%char :: ps ++ is_ ++ [f]) ++ rest)) in *.
  cbn [re.sub_at]. rewrite L. apply sub_at_skip.
Qed.

Lemma strip_ansi_render (pieces : list piece) :
  forallb well_formed pieces = true ->
  strip_ansi (render pieces) = plain_text pieces.
Proof.
  induction pieces as [|p pieces IH]; intro H; [reflexivity|].
  simpl in H. apply andb_true_iff in H as [Hp H].
  unfold render, plain_text. simpl flat_map. fold (render pieces) (plain_text pieces).
  destruct p as [t|ps is_ f].
  - rewrite strip_ansi_text by exact Hp. now rewrite IH.
  - rewrite strip_ansi_CSI by exact Hp. now rewrite IH.
Qed.

Lemma no_ESC_app (a b : str) : no_ESC (a ++ b) = no_ESC a && no_ESC b.
Proof. apply forallb_app. Qed.

Lemma no_ESC_plain_text (pieces : list piece) :
  forallb well_formed pieces = true -> no_ESC (plain_text pieces) = true.
Proof.
  induction pieces as [|p pieces IH]; intro H; [reflexivity|].
  simpl in H. apply andb_true_iff in H as [Hp H].
  unfold plain_text. simpl flat_map. fold (plain_text pieces).
  rewrite no_ESC_app, (IH H), andb_true_r.
  destruct p; [exact Hp | reflexivity].
Qed.

Lemma no_ESC_not_In (s : str) : no_ESC s = true <-> ~ In ESC s.
Proof.
  unfold no_ESC. rewrite forallb_forall. split.
  - intros H Hin. specialize (H _ Hin). now rewrite Ascii.eqb_refl in H.
  - intros H c Hin. apply negb_true_iff.
    destruct (Ascii.eqb_spec c ESC) as [->|]; [contradiction | reflexivity].
Qed.

Lemma no_ESC_strip (s : str) : no_ESC s = true -> no_ESC (Py.strip s) = true.
Proof.
  intro H. destruct (strip_decomposition s) as (a & b & E & _).
  rewrite E, !no_ESC_app in H.
  apply andb_true_iff in H as [_ H]. now apply andb_true_iff in H as [H _].
Qed.

(** A string without ESC contains no string that starts with ESC. *)
Lemma no_ESC_contains (w s : str) :
  no_ESC s = true -> Py.contains (ESC :: w) s = false.
Proof.
  intro H. apply not_true_iff_false. rewrite contains_spec.
  intros (a & b & E). rewrite E, no_ESC_app in H.
  apply andb_true_iff in H as [_ H]. simpl in H. discriminate.
Qed.

Lemma lines_truthy (s : str) :
  Forall (fun l => truthy l = true) (togglev2.lines s).
Proof.
  rewrite lines_lines_from, lines_from_frame. apply Forall_forall.
  intros l H. now apply filter_In in H.
Qed.

(** ** Sanitizing *)

(** C5. For every raw line made of text without ESC and of well-formed CSI
    sequences, [strip_ansi] returns the text, in order and whole: the
    result has no ESC, and neither it nor the sanitized line contains any
    of the sequences; the sanitized line is that text without the white
    space at its two ends; a line whose sanitized form is empty emits no
    signal, and no emitted line is ever empty. *)
Theorem sanitizer_removes_CSI_keeps_text :
  forall pieces : list piece,
    forallb well_formed pieces = true ->
    strip_ansi (render pieces) = plain_text pieces
    /\ ~ In ESC (strip_ansi (render pieces))
    /\ (forall p, In p pieces -> is_CSI p = true ->
          Py.contains (render_piece p) (strip_ansi (render pieces)) = false
          /\ Py.contains (render_piece p) (sanitize (render pieces)) = false)
    /\ (exists a b,
          plain_text pieces = a ++ sanitize (render pieces) ++ b
          /\ forallb Py.isspace a = true /\ forallb Py.isspace b = true)
    /\ (sanitize (render pieces) = [] ->
          signals (togglev2.emit_line (render pieces)) = [])
    /\ (forall s, Forall (fun l => truthy l = true) (togglev2.lines s)).
Proof.
  intros pieces H.
  pose proof (strip_ansi_render pieces H) as E.
  pose proof (no_ESC_plain_text pieces H) as N.
  split; [exact E|]. split; [rewrite E; now apply no_ESC_not_In|].
  split; [|split; [|split]].
  - intros p _ Hp. destruct p as [t|ps is_ f]; [discriminate|].
    cbn [render_piece]. unfold sanitize. rewrite E. split.
    + now apply no_ESC_contains.
    + now apply no_ESC_contains, no_ESC_strip.
  - unfold sanitize. rewrite E. apply strip_decomposition.
  - intro Z. unfold togglev2.emit_line. now rewrite Z.
  - apply lines_truthy.
Qed.

Lemma sanitizer_removes_CSI_keeps_text_witness :
  let pieces := [Text (py " up "); CSI (py "0;31") [] "m"%char;
                 Text (py "red"); CSI [] (py " ") "q"%char; Text (py " ")] in
  strip_ansi (render pieces) = plain_text pieces
  /\ ~ In ESC (strip_ansi (render pieces))
  /\ (forall p, In p pieces -> is_CSI p = true ->
        Py.contains (render_piece p) (strip_ansi (render pieces)) = false
        /\ Py.contains (render_piece p) (sanitize (render pieces)) = false)
  /\ (exists a b,
        plain_text pieces = a ++ sanitize (render pieces) ++ b
        /\ forallb Py.isspace a = true /\ forallb Py.isspace b = true)
  /\ (sanitize (render pieces) = [] ->
        signals (togglev2.emit_line (render pieces)) = [])
  /\ (forall s, Forall (fun l => truthy l = true) (togglev2.lines s)).
Proof.
  intro pieces. exact (sanitizer_removes_CSI_keeps_text pieces eq_refl).
Defined.

(** C9, as stated, fails: on the line ESC ESC [ 0 m A the sanitizing step
    removes the sequence ESC [ 0 m and returns ESC A, which is an escape
    sequence of the first alternative of the pattern; sanitizing again
    returns the empty string. *)
Lemma sanitize_twice_differs :
  sanitize (ESC :: ESC :: py "[0mA") = [ESC; "A"%char]
  /\ sanitize (sanitize (ESC :: ESC :: py "[0mA")) = []
  /\ sanitize (sanitize (ESC :: ESC :: py "[0mA"))
     <> sanitize (ESC :: ESC :: py "[0mA").
Proof.
  split; [reflexivity|]. split; [reflexivity|].
  change (sanitize (ESC :: ESC :: py "[0mA")) with [ESC; "A"%char].
  change (sanitize [ESC; "A"%char]) with (@nil ascii). discriminate.
Qed.

(** C9, amended. Whenever the sanitized line contains no ESC, sanitizing it
    again returns it unchanged; this is the case of every line made of text
    without ESC and of well-formed CSI sequences. *)
Theorem sanitize_idempotent_without_ESC :
  forall line : str,
    ~ In ESC (sanitize line) ->
    sanitize (sanitize line) = sanitize line
    /\ (forall pieces,
          forallb well_formed pieces = true ->
          ~ In ESC (sanitize (render pieces))
          /\ sanitize (sanitize (render pieces)) = sanitize (render pieces)).
Proof.
  assert (G : forall l, ~ In ESC (sanitize l) ->
              sanitize (sanitize l) = sanitize l).
  { intros l H. apply no_ESC_not_In in H. unfold sanitize at 1.
    rewrite (strip_ansi_no_ESC _ H). unfold sanitize. apply strip_idempotent. }
  intros line H. split; [now apply G|].
  intros pieces W.
  assert (N : ~ In ESC (sanitize (render pieces))).
  { apply no_ESC_not_In. unfold sanitize. rewrite strip_ansi_render by exact W.
    now apply no_ESC_strip, no_ESC_plain_text. }
  split; [exact N | now apply G].
Qed.

Lemma sanitize_idempotent_without_ESC_witness :
  let line := ESC :: py "[0;32m  [#] ip link add awg0 " ++ ESC :: py "[0m" in
  sanitize (sanitize line) = sanitize line
  /\ (forall pieces,
        forallb well_formed pieces = true ->
        ~ In ESC (sanitize (render pieces))
        /\ sanitize (sanitize (render pieces)) = sanitize (render pieces)).
Proof.
  intro line. apply (sanitize_idempotent_without_ESC line).
  vm_compute. intuition discriminate.
Defined.

(** ** Classifying *)

(** C6. [append_log] tags a line by the first rule that applies: directive
    exactly when the line starts with [#]; error exactly when it does not
    and its lower-case form contains one of error, failed, fatal; plain
    exactly when neither holds. The line is appended to the log unchanged,
    in the colour of its tag. So "[#] applying rule" is a directive,
    "Connection failed: timeout" an error, "Handshake complete" plain, and
    "[#] restart failed" a directive. *)
Theorem classify_first_match_wins :
  forall line : str,
    let marked := exists t, line = py "[#]" ++ t in
    let alarming :=
      exists w a b, In w keywords /\ Py.lower line = a ++ w ++ b in
    (classify line = directive <-> marked)
    /\ (classify line = error <-> ~ marked /\ alarming)
    /\ (classify line = plain <-> ~ marked /\ ~ alarming)
    /\ (forall w,
          log_box (append_log line w)
          = log_box w ++ [{| color := tag_color (classify line); text := line |}])
    /\ classify (py "[#] applying rule") = directive
    /\ classify (py "Connection failed: timeout") = error
    /\ classify (py "Handshake complete") = plain
    /\ classify (py "[#] restart failed") = directive.
Proof.
  intros line marked alarming.
  assert (M : Py.startswith line (py "[#]") = true <-> marked)
    by apply startswith_spec.
  assert (A : Py.any (fun w => Py.contains w (Py.lower line)) keywords = true
              <-> alarming).
  { unfold Py.any. rewrite existsb_exists. unfold alarming. split.
    - intros (w & Hw & C). apply contains_spec in C as (a & b & C).
      now exists w, a, b.
    - intros (w & a & b & Hw & C). exists w. split; [exact Hw|].
      apply contains_spec. now exists a, b. }
  assert (E : forall w,
            log_box (append_log line w)
            = log_box w ++ [{| color := tag_color (classify line); text := line |}])
    by reflexivity.
  split; [|split; [|split; [|split; [exact E | repeat split]]]];
    clear E; unfold classify;
    destruct (Py.startswith line (py "[#]"));
    destruct (Py.any _ keywords); intuition congruence.
Qed.

(** ** Putting the terminators back *)

Lemma kept_flushed (l : str) : kept l = true -> flushed l = [l].
Proof.
  unfold kept. intro H.
  apply andb_true_iff in H as [H Ho]. apply andb_true_iff in H as [H He].
  apply andb_true_iff in H as [Ht _].
  unfold flushed, sanitize.
  rewrite (strip_ansi_no_ESC l He), (strip_fixed l Ho). now rewrite Ht.
Qed.

Lemma lines_reinsert (ls : list str) :
  forallb kept ls = true -> lines_from [] (reinsert ls) = ls.
Proof.
  induction ls as [|l ls IH]; intro H; [reflexivity|].
  simpl in H. apply andb_true_iff in H as [Hl H].
  unfold reinsert. simpl flat_map. fold (reinsert ls).
  rewrite <- app_assoc. simpl app.
  rewrite lines_from_app; [| |reflexivity].
  - simpl app. rewrite (kept_flushed l Hl), (IH H). reflexivity.
  - unfold kept in Hl. apply andb_true_iff in Hl as [Hl _].
    apply andb_true_iff in Hl as [Hl _]. now apply andb_true_iff in Hl as [_ Hl].
Qed.

(** A terminator at the very end of the stream changes nothing. *)
Lemma lines_from_snoc_terminator (s : str) (t : ascii) (buf : str) :
  is_terminator t = true -> lines_from buf (s ++ [t]) = lines_from buf s.
Proof.
  intro H. unfold lines_from. rewrite scan_app. simpl. rewrite H. simpl.
  now rewrite !app_nil_r.
Qed.

Lemma chomp_snoc_LF (s : str) : chomp (s ++ [LF]) = chomp s.
Proof. unfold chomp. rewrite rev_app_distr. reflexivity. Qed.

(** C8, as stated, fails. The stream " a\n" yields the line "a": whatever
    terminators are put back, the blank before the "a" is lost, also after
    the terminators at the end are left out on both sides. The stream
    "a\n\nb\n" yields "a" and "b": putting the terminators back gives
    "a\nb\n", and the empty line is lost. *)
Lemma reinserting_terminators_does_not_reproduce :
  let s := py " a" ++ [LF] in
  let s' := py "a" ++ [LF; LF] ++ py "b" ++ [LF] in
  togglev2.lines s = [py "a"]
  /\ filter (fun c => negb (is_terminator c)) s <> List.concat (togglev2.lines s)
  /\ chomp (reinsert (togglev2.lines s)) <> chomp s
  /\ togglev2.lines s' = [py "a"; py "b"]
  /\ chomp (reinsert (togglev2.lines s')) <> chomp s'.
Proof.
  repeat split; try reflexivity; vm_compute; discriminate.
Qed.

(** C8, amended. For every stream made of lines that are not empty, have no
    terminator inside, no ESC and no white space around them, each followed
    by one "\n" (the last "\n" may be missing), the emitted lines are
    those lines: putting a "\n" back after each of them reproduces the
    stream, up to the "\n" at its end. *)
Theorem kept_lines_round_trip :
  forall (ls : list str) (s : str),
    forallb kept ls = true ->
    s = reinsert ls \/ s ++ [LF] = reinsert ls ->
    togglev2.lines s = ls
    /\ (reinsert (togglev2.lines s) = s \/ reinsert (togglev2.lines s) = s ++ [LF])
    /\ chomp (reinsert (togglev2.lines s)) = chomp s.
Proof.
  intros ls s K Hs.
  assert (L : togglev2.lines s = ls).
  { rewrite lines_lines_from. destruct Hs as [->|E].
    - now apply lines_reinsert.
    - rewrite <- (lines_from_snoc_terminator s LF []) by reflexivity.
      rewrite E. now apply lines_reinsert. }
  rewrite L. split; [reflexivity|]. destruct Hs as [->|E].
  - split; [now left | reflexivity].
  - rewrite <- E. split; [now right | apply chomp_snoc_LF].
Qed.

Lemma kept_lines_round_trip_witness :
  let s := py "a" ++ [LF] ++ py "b c" in
  togglev2.lines s = [py "a"; py "b c"]
  /\ (reinsert (togglev2.lines s) = s \/ reinsert (togglev2.lines s) = s ++ [LF])
  /\ chomp (reinsert (togglev2.lines s)) = chomp s.
Proof.
  intro s.
  exact (kept_lines_round_trip [py "a"; py "b c"] s eq_refl (or_intror eq_refl)).
Defined.

(** ** The two loops side by side *)

Lemma first_error_Char (s : str) : first_error (map Char s) = None.
Proof. induction s as [|c s IH]; simpl; [reflexivity | exact IH]. Qed.

Lemma for_line_in_clean (s : str) :
  wireguard_toggle.for_line_in (map Char s)
  = (map output_ready (iter_lines_from [] s), inr tt).
Proof.
  unfold wireguard_toggle.for_line_in, iter_lines_from.
  pose proof (iter_error (map Char s) []) as E.
  rewrite first_error_Char in E.
  destruct (wireguard_toggle.iter [] (map Char s)) as [ls e]. simpl in E.
  subst e. rewrite for_each_eq, bind_inr. simpl. now rewrite app_nil_r.
Qed.

Lemma wireguard_lines_iter (s : str) :
  wireguard_toggle.lines s = iter_lines_from [] s.
Proof.
  unfold wireguard_toggle.lines. rewrite for_line_in_clean.
  apply lines_of_output_ready.
Qed.

Lemma iter_lines_from_nil (pending : str) :
  iter_lines_from pending []
  = if truthy pending then body_lines pending else [].
Proof.
  unfold iter_lines_from. simpl. destruct (truthy pending); simpl;
    [apply app_nil_r | reflexivity].
Qed.

Lemma iter_lines_from_cons (pending : str) (c : ascii) (s : str) :
  iter_lines_from pending (c :: s)
  = if Ascii.eqb c LF then body_lines (pending ++ [c]) ++ iter_lines_from [] s
    else iter_lines_from (pending ++ [c]) s.
Proof.
  unfold iter_lines_from. simpl. destruct (Ascii.eqb c LF); [|reflexivity].
  destruct (wireguard_toggle.iter [] (map Char s)) as [ls e]. reflexivity.
Qed.

Lemma split_lines_head (s : str) : forall cur,
  exists more rest, split_lines cur s = (cur ++ more) :: rest.
Proof.
  induction s as [|c s IH]; intro cur; simpl.
  - exists [], []. now rewrite app_nil_r.
  - destruct (Ascii.eqb c LF).
    + exists [], (split_lines [] s). now rewrite app_nil_r.
    + destruct (IH (cur ++ [c])) as (more & rest & E).
      exists (c :: more), rest. now rewrite E, <- app_assoc.
Qed.

Lemma tidy_lines (l : str) :
  tidy l = true ->
  flushed l = (if truthy l then [l] else [])
  /\ body_lines l = (if truthy l then [l] else [])
  /\ body_lines (l ++ [LF]) = (if truthy l then [l] else []).
Proof.
  unfold tidy. intro H.
  apply andb_true_iff in H as [H Ho]. apply andb_true_iff in H as [_ He].
  assert (R : Py.rstrip_char LF l = l).
  { apply rstrip_LF_fixed. unfold no_outer_space in Ho.
    now apply andb_true_iff in Ho as [_ Ho]. }
  unfold flushed, sanitize, body_lines.
  rewrite rstrip_LF_snoc, R, (strip_ansi_no_ESC l He), (strip_fixed l Ho).
  repeat split.
Qed.

Lemma loops_agree_from (s : str) : forall buf,
  forallb tidy (split_lines buf s) = true ->
  lines_from buf s = iter_lines_from buf s.
Proof.
  induction s as [|c s IH]; intros buf H.
  - simpl in H. rewrite andb_true_r in H.
    destruct (tidy_lines buf H) as (F & B & _).
    rewrite lines_from_nil, iter_lines_from_nil, F, B.
    now destruct (truthy buf).
  - rewrite lines_from_cons, iter_lines_from_cons. unfold is_terminator.
    simpl in H. destruct (Ascii.eqb_spec c LF) as [->|NL].
    + simpl in H. apply andb_true_iff in H as [Hb H].
      destruct (tidy_lines buf Hb) as (F & _ & B).
      simpl. now rewrite F, B, (IH [] H).
    + destruct (Ascii.eqb_spec c CR) as [->|NC].
      * exfalso.
        destruct (split_lines_head s (buf ++ [CR])) as (more & rest & E).
        rewrite E in H. simpl in H. apply andb_true_iff in H as [H _].
        unfold tidy in H. apply andb_true_iff in H as [H _].
        apply andb_true_iff in H as [H _]. apply negb_true_iff in H.
        assert (T : existsb (Ascii.eqb CR) ((buf ++ [CR]) ++ more) = true).
        { apply existsb_exists. exists CR. split; [|reflexivity].
          apply in_or_app. left. apply in_or_app. right. now left. }
        congruence.
      * simpl. now apply IH.
Qed.

(** A run whose output is read without error, in full. *)
Lemma togglev2_run_clean (s : str) (w : PyException + Z) (cmd : str) :
  togglev2.run (fun _ => inr {| stdout := map Char s; wait := w |})
               {| togglev2.command := cmd |}
  = (map output_ready (togglev2.lines s)
     ++ [outcome (fun _ => inr {| stdout := map Char s; wait := w |}) cmd],
     inr tt).
Proof.
  unfold togglev2.run, outcome, call. cbn [stdout wait].
  rewrite first_error_Char, lines_lines_from. unfold lines_from.
  rewrite bind_inr. cbn beta. cbn [stdout wait].
  rewrite read_loop_scan, bind_inr. cbn beta.
  rewrite final_flush, bind_inr. cbn beta.
  cbn [fst snd app]. rewrite map_app.
  destruct w as [e|rc].
  - simpl. now rewrite !app_nil_r.
  - rewrite bind_inr. cbn beta. rewrite report_eq. simpl.
    now rewrite <- app_assoc.
Qed.

Lemma wireguard_toggle_run_clean (s : str) (w : PyException + Z) (cmd : str) :
  wireguard_toggle.run (fun _ => inr {| stdout := map Char s; wait := w |})
                       {| wireguard_toggle.command := cmd |}
  = (map output_ready (wireguard_toggle.lines s)
     ++ [outcome (fun _ => inr {| stdout := map Char s; wait := w |}) cmd],
     inr tt).
Proof.
  unfold wireguard_toggle.run, outcome, call. cbn [stdout wait].
  rewrite first_error_Char, wireguard_lines_iter.
  rewrite bind_inr. cbn beta. cbn [stdout wait].
  rewrite for_line_in_clean, bind_inr. cbn beta.
  cbn [fst snd app].
  destruct w as [e|rc].
  - simpl. now rewrite !app_nil_r.
  - rewrite bind_inr. cbn beta. rewrite report_eq. simpl. reflexivity.
Qed.

(** C10. For every stream whose lines have no CR, no ESC and no white space
    at their ends, the loop of [togglev2.py] and the iteration of
    [wireguard_toggle.py] emit the same lines in the same order, and the
    two runs on a process with that output send the same signals. *)
Theorem the_two_loops_emit_the_same_lines :
  forall s : str,
    forallb tidy (split_lines [] s) = true ->
    togglev2.lines s = wireguard_toggle.lines s
    /\ (forall (w : PyException + Z) (cmd : str),
          togglev2.run (fun _ => inr {| stdout := map Char s; wait := w |})
                       {| togglev2.command := cmd |}
          = wireguard_toggle.run
              (fun _ => inr {| stdout := map Char s; wait := w |})
              {| wireguard_toggle.command := cmd |}).
Proof.
  intros s H.
  assert (L : togglev2.lines s = wireguard_toggle.lines s).
  { rewrite lines_lines_from, wireguard_lines_iter. now apply loops_agree_from. }
  split; [exact L|].
  intros w cmd. now rewrite togglev2_run_clean, wireguard_toggle_run_clean, L.
Qed.

Lemma the_two_loops_emit_the_same_lines_witness :
  let s := py "[#] ip link add awg0" ++ [LF; LF] ++ py "done" in
  togglev2.lines s = wireguard_toggle.lines s
  /\ (forall (w : PyException + Z) (cmd : str),
        togglev2.run (fun _ => inr {| stdout := map Char s; wait := w |})
                     {| togglev2.command := cmd |}
        = wireguard_toggle.run
            (fun _ => inr {| stdout := map Char s; wait := w |})
            {| wireguard_toggle.command := cmd |}).
Proof.
  intro s. exact (the_two_loops_emit_the_same_lines s eq_refl).
Defined.

(** ** Starting a command *)

Lemma gated_disabled (p : Panel) (w : WireGuardToggle) (b : button) :
  gated p w = true -> In b (switched p) -> btn_enabled w b = false.
Proof.
  unfold gated. rewrite forallb_forall. intros H Hb.
  now apply negb_true_iff, H.
Qed.

Lemma start_command_gated (p : Panel) (command label : str)
    (w : WireGuardToggle) :
  gated p (start_command p command label w) = true.
Proof. destruct p; reflexivity. Qed.

Lemma _on_done_open (p : Panel) (ok : bool) (m : StatusText) (n : nat)
    (w : WireGuardToggle) :
  open_ p (finished n (_on_done p ok m w)) = true.
Proof. destruct p; reflexivity. Qed.

Lemma start_command_single_flight (p : Panel) (command label : str)
    (w : WireGuardToggle) :
  in_flight w = [] -> single_flight p (start_command p command label w).
Proof.
  intro H. right. split; [|apply start_command_gated].
  exists {| thread_command := command; thread_label := label |}.
  cbn. now rewrite H.
Qed.

Lemma handle_single_flight (p : Panel) (w : WireGuardToggle) (ev : ui_event) :
  single_flight p w -> single_flight p (handle p w ev).
Proof.
  intro H. destruct ev as [b|n sig]; cbn [handle].
  - destruct (existsb (button_eqb b) (buttons p) && btn_enabled w b) eqn:E;
      [|exact H].
    apply andb_true_iff in E as [Eb Ee].
    destruct H as [[Hf Ho]|[Ht Hg]].
    + destruct b; cbn [slot]; try (now apply start_command_single_flight);
        left; now split.
    + destruct p, b; cbn in Eb; try discriminate;
        try (rewrite (gated_disabled _ w _ Hg) in Ee;
             [discriminate | cbn; tauto]);
        right; now split.
  - destruct (nth_error (in_flight w) n) as [t|] eqn:E; [|exact H].
    destruct H as [[Hf Ho]|[[t0 Ht] Hg]].
    + rewrite Hf in E. destruct n; discriminate.
    + destruct sig as [line| |err].
      * right. split; [now exists t0 | exact Hg].
      * left. split; [|apply _on_done_open].
        cbn. rewrite Ht in *. destruct n as [|[|n]]; [reflexivity | |]; discriminate.
      * left. split; [|apply _on_done_open].
        cbn. rewrite Ht in *. destruct n as [|[|n]]; [reflexivity | |]; discriminate.
Qed.

Lemma fold_handle_single_flight (p : Panel) (evs : list ui_event) :
  forall w, single_flight p w -> single_flight p (fold_left (handle p) evs w).
Proof.
  induction evs as [|ev evs IH]; intros w H; [exact H|].
  simpl. apply IH. now apply handle_single_flight.
Qed.

Lemma main_loop_single_flight (p : Panel) (evs : list ui_event) :
  single_flight p (main_loop p evs).
Proof.
  apply fold_handle_single_flight. left. split; [reflexivity|].
  destruct p; reflexivity.
Qed.

(** C2, as stated, fails: [start_command] has no busy check. Called while a
    command is running, after one line of its output was logged, it
    returns as usual, clears the log, replaces [_thread] and starts a second
    thread before the first has finished, in both files. *)
Lemma start_command_while_running_starts_again :
  starts_again Togglev2 /\ starts_again WireguardToggle.
Proof.
  split; (repeat split; intro E;
          apply (f_equal (fun x => List.length (in_flight x))) in E;
          discriminate).
Qed.

(** C2, amended. [start_command] never fails: in any state it clears the
    log, writes the header, disables the buttons and starts a new thread.
    What keeps two commands from overlapping is the buttons: whatever
    clicks and signals the main loop has handled, at most one thread is in
    flight; while one is, a click on a button that starts a command does
    nothing and leaves the window, and the command in flight, as they are;
    when none is, those buttons are enabled and a click starts the
    command. *)
Theorem start_command_is_gated_by_the_buttons :
  forall (p : Panel) (evs : list ui_event),
    let w := main_loop p evs in
    List.length (in_flight w) <= 1
    /\ (execution_state w = Running ->
          forall b, starts b = true -> handle p w (clicked b) = w)
    /\ (execution_state w = Idle ->
          forall b, In b (switched p) ->
            btn_enabled w b = true
            /\ handle p w (clicked b) = slot p b w
            /\ execution_state (handle p w (clicked b)) = Running)
    /\ (forall command label w0,
          let header := py "<span style='color:#569cd6;'>$ " ++ label
                        ++ py "</span>" in
          let t := {| thread_command := command; thread_label := label |} in
          let w1 := start_command p command label w0 in
          in_flight w1 = in_flight w0 ++ [t]
          /\ _thread w1 = Some t
          /\ log_box w1
             = [{| color := tag_color (classify header); text := header |}]
          /\ gated p w1 = true
          /\ execution_state w1 = Running).
Proof.
  intros p evs w.
  pose proof (main_loop_single_flight p evs) as H. fold w in H.
  split; [|split; [|split]].
  - destruct H as [[Hf _]|[[t Ht] _]]; [rewrite Hf | rewrite Ht]; simpl; lia.
  - unfold execution_state. intros R b Sb.
    destruct H as [[Hf _]|[_ Hg]]; [now rewrite Hf in R|].
    cbn [handle].
    destruct p, b; try discriminate; try reflexivity;
      rewrite (gated_disabled _ w _ Hg); try reflexivity; cbn; tauto.
  - unfold execution_state. intros I b Hb.
    destruct H as [[Hf Ho]|[[t Ht] _]]; [|now rewrite Ht in I].
    assert (En : btn_enabled w b = true).
    { unfold open_ in Ho. rewrite forallb_forall in Ho. now apply Ho. }
    assert (Hh : handle p w (clicked b) = slot p b w).
    { cbn [handle]. rewrite En.
      destruct p, b; cbn in Hb;
        try (exfalso; intuition discriminate); reflexivity. }
    rewrite Hh. split; [exact En|]. split; [reflexivity|].
    destruct p, b; cbn in Hb;
      try (exfalso; intuition discriminate); cbn; now rewrite Hf.
  - intros command label w0 header t w1. repeat split.
    + apply start_command_gated.
    + unfold execution_state. cbn. now destruct (in_flight w0).
Qed.

(** * Further properties *)

(** ** What [strip_ansi] removes and what it leaves *)

Lemma ends_single_escape (c : ascii) (rest : str) :
  re.in_set single_escapes c = true ->
  exists others, re.ends ANSI_ESCAPE (ESC :: c :: rest) = rest :: others.
Proof.
  intro H. unfold ANSI_ESCAPE. fold single_escapes.
  cbn [re.ends]. rewrite Ascii.eqb_refl. cbn [flat_map]. rewrite H.
  cbn [app]. eexists. reflexivity.
Qed.

Lemma strip_ansi_single_escape (c : ascii) (rest : str) :
  re.in_set single_escapes c = true ->
  strip_ansi (ESC :: c :: rest) = strip_ansi rest.
Proof.
  intro H. destruct (ends_single_escape c rest H) as (others & E).
  unfold strip_ansi, re.sub_empty. cbn [re.sub_at].
  unfold re.match_len. rewrite E. cbn [List.length].
  replace (S (S (List.length rest)) - List.length rest) with 2 by lia.
  destruct rest; reflexivity.
Qed.

(** X1. An ESC followed by one character of [@-Z] or [\-_] is removed with
    that character, and nothing else is: the text before it (without ESC)
    stays, and what follows is stripped on its own. So of an OSC sequence
    ESC ] ... only the ESC ] goes. *)
Theorem strip_ansi_removes_two_character_escape :
  forall (t : str) (c : ascii) (rest : str),
    no_ESC t = true ->
    re.in_set single_escapes c = true ->
    strip_ansi (t ++ ESC :: c :: rest) = t ++ strip_ansi rest.
Proof.
  intros t c rest Ht Hc.
  rewrite strip_ansi_text by exact Ht. now rewrite strip_ansi_single_escape.
Qed.

Lemma strip_ansi_removes_two_character_escape_witness :
  strip_ansi (py "a" ++ ESC :: "]"%char :: py "0;title")
  = py "a" ++ strip_ansi (py "0;title").
Proof.
  exact (strip_ansi_removes_two_character_escape
           (py "a") "]"%char (py "0;title") eq_refl eq_refl).
Defined.

Lemma star_ends_suffix (cs : re.charset) (s x : str) :
  In x (re.star_ends cs s) -> exists pre, s = pre ++ x.
Proof.
  induction s as [|c s IH]; simpl.
  - intros [<-|[]]. now exists [].
  - destruct (re.in_set cs c).
    + intro H. apply in_app_or in H as [H|[<-|[]]].
      * destruct (IH H) as (pre & ->). now exists (c :: pre).
      * now exists [].
    + intros [<-|[]]. now exists [].
Qed.

Lemma flat_map_nil {A B} (f : A -> list B) (l : list A) :
  (forall x, In x l -> f x = []) -> flat_map f l = [].
Proof.
  induction l as [|a l IH]; intro H; simpl; [reflexivity|].
  rewrite (H a (or_introl eq_refl)). apply IH.
  intros x Hx. apply H. now right.
Qed.

Lemma no_final_suffix (pre x : str) :
  no_final (pre ++ x) = true -> no_final x = true.
Proof.
  unfold no_final. rewrite forallb_app. intro H.
  now apply andb_true_iff in H as [_ H].
Qed.

Lemma final_set_fails (x : str) :
  no_final x = true -> re.ends (re.Set_ final_bytes) x = [].
Proof.
  destruct x as [|c x]; [reflexivity|]. simpl. intro H.
  apply andb_true_iff in H as [H _]. apply negb_true_iff in H. now rewrite H.
Qed.

(** Without a final byte after it, ESC [ starts no match. *)
Lemma match_len_no_final (body : str) :
  no_final body = true ->
  re.match_len ANSI_ESCAPE (ESC :: "["%char :: body) = None.
Proof.
  intro H. unfold re.match_len.
  assert (E : re.ends ANSI_ESCAPE (ESC :: "["%char :: body) = []).
  { unfold ANSI_ESCAPE. fold parameter_bytes intermediate_bytes final_bytes.
    cbn [re.ends]. rewrite Ascii.eqb_refl. cbn [flat_map].
    rewrite bracket_not_single, Ascii.eqb_refl. cbn [flat_map app].
    rewrite !app_nil_r. apply flat_map_nil. intros x Hx.
    apply star_ends_suffix in Hx as (pre & ->).
    apply flat_map_nil. intros y Hy.
    apply star_ends_suffix in Hy as (pre' & ->).
    apply final_set_fails.
    now apply no_final_suffix in H; apply no_final_suffix in H. }
  now rewrite E.
Qed.

Lemma strip_ansi_no_match (c : ascii) (s : str) :
  re.match_len ANSI_ESCAPE (c :: s) = None ->
  strip_ansi (c :: s) = c :: strip_ansi s.
Proof.
  intro H. unfold strip_ansi, re.sub_empty.
  change (re.sub_at ANSI_ESCAPE 0 (c :: s))
    with (match re.match_len ANSI_ESCAPE (c :: s) with
          | Some (S k) => re.sub_at ANSI_ESCAPE k s
          | _ => c :: re.sub_at ANSI_ESCAPE 0 s
          end).
  now rewrite H.
Qed.

(** X2. A CSI introducer ESC [ that no final byte (@ to ~) follows is left
    in place with everything after it: a sequence cut short by the end of
    the line is not removed. *)
Theorem strip_ansi_keeps_unfinished_CSI :
  forall t body : str,
    no_ESC t = true ->
    no_ESC body = true ->
    no_final body = true ->
    strip_ansi (t ++ ESC :: "["%char :: body) = t ++ ESC :: "["%char :: body.
Proof.
  intros t body Ht Hb Hf.
  rewrite strip_ansi_text by exact Ht. f_equal.
  rewrite (strip_ansi_no_match ESC _ (match_len_no_final body Hf)). f_equal.
  apply strip_ansi_no_ESC. simpl. exact Hb.
Qed.

Lemma strip_ansi_keeps_unfinished_CSI_witness :
  strip_ansi (py "up " ++ ESC :: "["%char :: py "0;31")
  = py "up " ++ ESC :: "["%char :: py "0;31".
Proof.
  exact (strip_ansi_keeps_unfinished_CSI (py "up ") (py "0;31")
           eq_refl eq_refl eq_refl).
Defined.

Lemma Subseq_refl (s : str) : Subseq s s.
Proof. induction s; constructor; assumption. Qed.

Lemma Subseq_app_l (a y z : str) : Subseq y z -> Subseq y (a ++ z).
Proof. intro H. induction a; simpl; [exact H | now constructor]. Qed.

Lemma Subseq_app_r (y b : str) : Subseq y (y ++ b).
Proof.
  induction y as [|c y IH]; simpl.
  - induction b; constructor; assumption.
  - now constructor.
Qed.

Lemma Subseq_trans (a b c : str) : Subseq a b -> Subseq b c -> Subseq a c.
Proof.
  intros Hab Hbc. revert a Hab.
  induction Hbc as [|x b c Hbc IH|x b c Hbc IH]; intros a Hab.
  - exact Hab.
  - constructor. now apply IH.
  - inversion Hab; subst; constructor; now apply IH.
Qed.

Lemma Subseq_In (a b : str) (c : ascii) : Subseq a b -> In c a -> In c b.
Proof.
  induction 1 as [|x a b H IH|x a b H IH]; simpl; intro Hc.
  - exact Hc.
  - right. now apply IH.
  - destruct Hc as [->|Hc]; [now left | right; now apply IH].
Qed.

Lemma Subseq_length (a b : str) :
  Subseq a b -> List.length a <= List.length b.
Proof. induction 1; simpl; lia. Qed.

Lemma sub_at_Subseq (p : re.pattern) (s : str) : forall k,
  Subseq (re.sub_at p k s) s.
Proof.
  induction s as [|c s IH]; intro k; cbn [re.sub_at]; [constructor|].
  destruct k as [|k]; [|constructor; apply IH].
  destruct (re.match_len p (c :: s)) as [[|m]|]; constructor; apply IH.
Qed.

Lemma strip_Subseq (s : str) : Subseq (Py.strip s) s.
Proof.
  destruct (strip_decomposition s) as (a & b & E & _).
  rewrite E at 2. apply Subseq_app_l, Subseq_app_r.
Qed.

Lemma sanitize_Subseq (s : str) : Subseq (sanitize s) s.
Proof.
  unfold sanitize. eapply Subseq_trans; [apply strip_Subseq|].
  apply sub_at_Subseq.
Qed.

(** X3. [strip_ansi], and the sanitizing step as a whole, only remove
    characters: the result is the text with some characters left out, in
    the same order, so it is never longer and holds no character that the
    text has not. *)
Theorem strip_ansi_only_removes :
  forall text : str,
    Subseq (strip_ansi text) text
    /\ Subseq (sanitize text) text
    /\ List.length (sanitize text) <= List.length (strip_ansi text)
       <= List.length text
    /\ (forall c, In c (sanitize text) -> In c text).
Proof.
  intro text. split; [apply sub_at_Subseq|].
  split; [apply sanitize_Subseq|]. split.
  - split; apply Subseq_length; [apply strip_Subseq | apply sub_at_Subseq].
  - intros c. apply Subseq_In, sanitize_Subseq.
Qed.

(** ** The lines a run hands over *)

Lemma flushed_shape (buf : str) :
  terminator_free buf = true ->
  Forall (fun l => truthy l = true /\ no_outer_space l = true
                   /\ terminator_free l = true) (flushed buf).
Proof.
  intro H. unfold flushed. destruct (truthy (sanitize buf)) eqn:T; [|constructor].
  constructor; [|constructor]. split; [exact T|]. split.
  - apply strip_no_outer_space.
  - unfold terminator_free in *. rewrite forallb_forall in *.
    intros c Hc. apply H. revert Hc. apply Subseq_In, sanitize_Subseq.
Qed.

Lemma read_loop_lines_shape (out : list read_result) : forall buf,
  terminator_free buf = true ->
  exists ls r,
    togglev2.read_loop buf out = (map output_ready ls, r)
    /\ Forall (fun l => truthy l = true /\ no_outer_space l = true
                        /\ terminator_free l = true) ls
    /\ (forall b, r = inr b -> terminator_free b = true).
Proof.
  induction out as [|x out IH]; intros buf Hb; simpl.
  - exists [], (inr buf). repeat split; [constructor|]. now intros b [= <-].
  - destruct x as [ch|e].
    + destruct (Ascii.eqb ch LF || Ascii.eqb ch CR) eqn:T.
      * destruct (IH [] eq_refl) as (ls & r & E & F & R).
        exists (flushed buf ++ ls), r.
        rewrite emit_line_flushed, bind_inr, E. simpl. rewrite map_app.
        repeat split; [|exact R].
        apply Forall_app. split; [now apply flushed_shape | exact F].
      * apply IH. unfold terminator_free in *. rewrite forallb_app, Hb.
        simpl. unfold is_terminator. now rewrite T.
    + exists [], (inl e). repeat split; [constructor | discriminate].
Qed.

(** X4. Every line a run of [togglev2.py] emits, whatever the process does,
    is not empty, has no white space at its two ends and contains neither
    "\n" nor "\r". *)
Theorem togglev2_emitted_lines_are_trimmed_single_lines :
  forall (sh : Shell) (self : togglev2.CommandThread) (l : str),
    In (output_ready l) (signals (togglev2.run sh self)) ->
    truthy l = true /\ no_outer_space l = true /\ terminator_free l = true.
Proof.
  intros sh self l.
  set (good := fun l : str => truthy l = true /\ no_outer_space l = true
                              /\ terminator_free l = true).
  assert (G : forall ls t, Forall good ls -> is_terminal t = true ->
              In (output_ready l) (map output_ready ls ++ [t]) -> good l).
  { intros ls t F T H. apply in_app_or in H as [H|[H|[]]].
    - apply in_map_iff in H as (l' & [= ->] & H).
      rewrite Forall_forall in F. now apply F.
    - subst t. discriminate. }
  unfold togglev2.run, call.
  destruct (sh (togglev2.command self)) as [e|p].
  - simpl. intros [H|[]]. discriminate.
  - rewrite bind_inr. cbn beta.
    destruct (read_loop_lines_shape (stdout p) [] eq_refl)
      as (ls & r & E & F & R).
    rewrite E. destruct r as [e|buf].
    + simpl. rewrite ?app_nil_r. now apply (G ls (finished_err (str_of_exc e))).
    + rewrite bind_inr. cbn beta. rewrite final_flush, bind_inr. cbn beta.
      assert (F' : Forall good (ls ++ flushed buf)).
      { apply Forall_app. split; [exact F|]. apply flushed_shape. now apply R. }
      destruct (wait p) as [e|rc].
      * simpl. repeat rewrite <- app_assoc. simpl.
        rewrite app_assoc, <- map_app.
        now apply (G _ (finished_err (str_of_exc e))).
      * rewrite bind_inr. cbn beta. rewrite report_eq. simpl.
        repeat rewrite <- app_assoc. simpl.
        rewrite app_assoc, <- map_app. apply (G _ _ F').
        now destruct (rc =? 0)%Z.
Qed.

Lemma togglev2_emitted_lines_are_trimmed_single_lines_witness :
  truthy (py "X") = true /\ no_outer_space (py "X") = true
  /\ terminator_free (py "X") = true.
Proof.
  apply (togglev2_emitted_lines_are_trimmed_single_lines
           (fun _ => inr {| stdout := map Char (py "  X " ++ [CR; LF]);
                            wait := inr 0%Z |})
           {| togglev2.command := py "x" |} (py "X")).
  left. reflexivity.
Defined.

Lemma rstrip_LF_free (p : str) :
  LF_free p = true -> Py.rstrip_char LF p = p.
Proof.
  unfold Py.rstrip_char, LF_free. intro H.
  rewrite <- forallb_rev in H.
  destruct (rev p) as [|c r] eqn:E.
  - now rewrite <- (rev_involutive p), E.
  - cbn [Py.dropwhile]. cbn [forallb] in H.
    apply andb_true_iff in H as [H _]. apply negb_true_iff in H.
    rewrite Ascii.eqb_sym, H. now rewrite <- (rev_involutive p), E.
Qed.

Lemma iter_yields (out : list read_result) : forall pending,
  LF_free pending = true ->
  Forall (fun l => exists p, LF_free p = true /\ (l = p ++ [LF] \/ l = p))
         (fst (wireguard_toggle.iter pending out)).
Proof.
  induction out as [|x out IH]; intros pending H; simpl.
  - destruct (truthy pending); constructor; [|constructor].
    exists pending. split; [exact H | now right].
  - destruct x as [ch|e]; [|constructor].
    destruct (Ascii.eqb_spec ch LF) as [->|N].
    + specialize (IH [] eq_refl).
      destruct (wireguard_toggle.iter [] out) as [ls e]. simpl in *.
      constructor; [|exact IH]. exists pending. split; [exact H | now left].
    + apply IH. unfold LF_free in *. rewrite forallb_app, H. simpl.
      apply Ascii.eqb_neq in N. now rewrite N.
Qed.

Lemma body_lines_shape (l : str) :
  (exists p, LF_free p = true /\ (l = p ++ [LF] \/ l = p)) ->
  Forall (fun l => truthy l = true /\ LF_free l = true) (body_lines l).
Proof.
  intros (p & Hp & E).
  assert (R : Py.rstrip_char LF l = p).
  { destruct E as [->| ->]; [rewrite rstrip_LF_snoc|]; now apply rstrip_LF_free. }
  unfold body_lines. rewrite R.
  destruct (truthy p) eqn:T; constructor; [now split | constructor].
Qed.

Lemma for_line_in_eq (out : list read_result) :
  wireguard_toggle.for_line_in out
  = (map output_ready (flat_map body_lines (fst (wireguard_toggle.iter [] out))),
     match snd (wireguard_toggle.iter [] out) with
     | Some e => inl e
     | None => inr tt
     end).
Proof.
  unfold wireguard_toggle.for_line_in.
  destruct (wireguard_toggle.iter [] out) as [ls e].
  rewrite for_each_eq, bind_inr. destruct e; simpl; now rewrite app_nil_r.
Qed.

(** X5. Every line a run of [wireguard_toggle.py] emits, whatever the
    process does, is not empty and contains no "\n". *)
Theorem wireguard_toggle_emitted_lines_are_single_lines :
  forall (sh : Shell) (self : wireguard_toggle.CommandThread) (l : str),
    In (output_ready l) (signals (wireguard_toggle.run sh self)) ->
    truthy l = true /\ LF_free l = true.
Proof.
  intros sh self l.
  set (good := fun l : str => truthy l = true /\ LF_free l = true).
  assert (G : forall ls t, Forall good ls -> is_terminal t = true ->
              In (output_ready l) (map output_ready ls ++ [t]) -> good l).
  { intros ls t F T H. apply in_app_or in H as [H|[H|[]]].
    - apply in_map_iff in H as (l' & [= ->] & H).
      rewrite Forall_forall in F. now apply F.
    - subst t. discriminate. }
  unfold wireguard_toggle.run, call.
  destruct (sh (wireguard_toggle.command self)) as [e|p].
  - simpl. intros [H|[]]. discriminate.
  - rewrite bind_inr. cbn beta. rewrite for_line_in_eq.
    pose proof (iter_yields (stdout p) [] eq_refl) as Y.
    destruct (wireguard_toggle.iter [] (stdout p)) as [ls e].
    cbn [fst snd] in *.
    assert (F : Forall good (flat_map body_lines ls)).
    { clear -Y. induction Y as [|x ls Hx Y IH]; simpl; [constructor|].
      apply Forall_app. split; [now apply body_lines_shape | exact IH]. }
    destruct e as [e|].
    + simpl. now apply (G _ (finished_err (str_of_exc e))).
    + rewrite bind_inr. cbn beta.
      destruct (wait p) as [e|rc].
      * simpl. repeat rewrite <- app_assoc. simpl.
        now apply (G _ (finished_err (str_of_exc e))).
      * rewrite bind_inr. cbn beta. rewrite report_eq. simpl.
        repeat rewrite <- app_assoc. simpl.
        apply (G _ _ F). now destruct (rc =? 0)%Z.
Qed.

Lemma wireguard_toggle_emitted_lines_are_single_lines_witness :
  truthy (py " X ") = true /\ LF_free (py " X ") = true.
Proof.
  apply (wireguard_toggle_emitted_lines_are_single_lines
           (fun _ => inr {| stdout := map Char (py " X " ++ [LF; LF]);
                            wait := inr 0%Z |})
           {| wireguard_toggle.command := py "x" |} (py " X ")).
  left. reflexivity.
Defined.

(** ** A read that raises *)

Lemma read_loop_error (s : str) (e : PyException) (rest : list read_result) :
  forall buf,
    togglev2.read_loop buf (map Char s ++ ReadError e :: rest)
    = (map output_ready (fst (scan buf s)), inl e).
Proof.
  induction s as [|c s IH]; intro buf; simpl; [reflexivity|].
  unfold is_terminator. destruct (Ascii.eqb c LF || Ascii.eqb c CR).
  - rewrite emit_line_flushed, bind_inr, IH. simpl.
    destruct (scan [] s) as [ls b]. simpl. now rewrite map_app.
  - apply IH.
Qed.

Lemma scan_raw (raw : str) : forall buf,
  terminator_free raw = true -> scan buf raw = ([], buf ++ raw).
Proof.
  induction raw as [|c raw IH]; intros buf H; simpl.
  - now rewrite app_nil_r.
  - simpl in H. apply andb_true_iff in H as [Hc H].
    apply negb_true_iff in Hc. rewrite Hc, IH by exact H.
    now rewrite <- app_assoc.
Qed.

Lemma togglev2_run_error (s : str) (e : PyException)
    (rest : list read_result) (w : PyException + Z) (cmd : str) :
  togglev2.run
    (fun _ => inr {| stdout := map Char s ++ ReadError e :: rest; wait := w |})
    {| togglev2.command := cmd |}
  = (map output_ready (fst (scan [] s)) ++ [finished_err (str_of_exc e)],
     inr tt).
Proof.
  unfold togglev2.run, call. cbn [togglev2.command].
  rewrite bind_inr. cbn beta. cbn [stdout]. rewrite read_loop_error.
  reflexivity.
Qed.

(** X6. When a read of the output raises in [togglev2.py], the lines that
    were ended by a terminator before it are emitted, then
    [finished_err(str(e))]: the characters read since the last terminator
    are dropped, and neither what the output would have delivered next nor
    [wait] plays a part. With no terminator before the error, no line is
    emitted. *)
Theorem togglev2_read_error_drops_the_unfinished_line :
  forall (done : str) (t : ascii) (raw : str) (e : PyException)
         (rest : list read_result) (w : PyException + Z) (cmd : str),
    is_terminator t = true ->
    terminator_free raw = true ->
    togglev2.run
      (fun _ => inr {| stdout := map Char (done ++ t :: raw)
                                 ++ ReadError e :: rest;
                       wait := w |})
      {| togglev2.command := cmd |}
    = (map output_ready (togglev2.lines (done ++ [t]))
       ++ [finished_err (str_of_exc e)], inr tt)
    /\ togglev2.run
         (fun _ => inr {| stdout := map Char raw ++ ReadError e :: rest;
                          wait := w |})
         {| togglev2.command := cmd |}
       = ([finished_err (str_of_exc e)], inr tt).
Proof.
  intros done t raw e rest w cmd Ht Hraw. rewrite !togglev2_run_error. split.
  - do 2 f_equal.
    rewrite lines_lines_from, lines_from_snoc_terminator by exact Ht.
    unfold lines_from. rewrite scan_app. cbn [fst snd scan]. rewrite Ht.
    rewrite (scan_raw raw [] Hraw). cbn [fst]. now rewrite app_nil_r.
  - now rewrite (scan_raw raw [] Hraw).
Qed.

Lemma togglev2_read_error_drops_the_unfinished_line_witness :
  togglev2.run
    (fun _ => inr {| stdout := map Char (py "a" ++ LF :: py "b")
                               ++ ReadError (Exception (py "io")) :: [];
                     wait := inr 0%Z |})
    {| togglev2.command := py "x" |}
  = (map output_ready (togglev2.lines (py "a" ++ [LF]))
     ++ [finished_err (py "io")], inr tt)
  /\ togglev2.run
       (fun _ => inr {| stdout := map Char (py "b")
                                  ++ ReadError (Exception (py "io")) :: [];
                        wait := inr 0%Z |})
       {| togglev2.command := py "x" |}
     = ([finished_err (py "io")], inr tt).
Proof.
  exact (togglev2_read_error_drops_the_unfinished_line
           (py "a") LF (py "b") (Exception (py "io")) [] (inr 0%Z) (py "x")
           eq_refl eq_refl).
Defined.

Lemma iter_after_newline (done : str) (out : list read_result) :
  forall pending,
    wireguard_toggle.iter pending (map Char (done ++ [LF]) ++ out)
    = (fst (wireguard_toggle.iter pending (map Char (done ++ [LF])))
       ++ fst (wireguard_toggle.iter [] out),
       snd (wireguard_toggle.iter [] out)).
Proof.
  induction done as [|c done IH]; intro pending.
  - simpl. now destruct (wireguard_toggle.iter [] out).
  - cbn [app map wireguard_toggle.iter]. destruct (Ascii.eqb c LF).
    + rewrite IH.
      destruct (wireguard_toggle.iter [] (map Char (done ++ [LF]))).
      reflexivity.
    + apply IH.
Qed.

Lemma iter_error_raw (raw : str) (e : PyException) (rest : list read_result) :
  forall pending,
    LF_free raw = true ->
    wireguard_toggle.iter pending (map Char raw ++ ReadError e :: rest)
    = ([], Some e).
Proof.
  induction raw as [|c raw IH]; intros pending H; [reflexivity|].
  simpl in H. apply andb_true_iff in H as [Hc H]. apply negb_true_iff in Hc.
  cbn [app map wireguard_toggle.iter]. rewrite Hc. now apply IH.
Qed.

(** X7. When a read of the output raises in [wireguard_toggle.py], the
    lines that were ended by a "\n" before it are emitted, then
    [finished_err(str(e))]: the characters read since the last "\n" are
    dropped, and neither what the output would have delivered next nor
    [wait] plays a part. *)
Theorem wireguard_toggle_read_error_drops_the_unfinished_line :
  forall (done raw : str) (e : PyException) (rest : list read_result)
         (w : PyException + Z) (cmd : str),
    LF_free raw = true ->
    wireguard_toggle.run
      (fun _ => inr {| stdout := map Char (done ++ LF :: raw)
                                 ++ ReadError e :: rest;
                       wait := w |})
      {| wireguard_toggle.command := cmd |}
    = (map output_ready (wireguard_toggle.lines (done ++ [LF]))
       ++ [finished_err (str_of_exc e)], inr tt)
    /\ wireguard_toggle.run
         (fun _ => inr {| stdout := map Char raw ++ ReadError e :: rest;
                          wait := w |})
         {| wireguard_toggle.command := cmd |}
       = ([finished_err (str_of_exc e)], inr tt).
Proof.
  intros done raw e rest w cmd Hraw.
  unfold wireguard_toggle.run, call. cbn [wireguard_toggle.command].
  rewrite !bind_inr. cbn beta. cbn [stdout]. rewrite !for_line_in_eq.
  rewrite (iter_error_raw raw e rest [] Hraw).
  replace (map Char (done ++ LF :: raw) ++ ReadError e :: rest)
    with (map Char (done ++ [LF]) ++ (map Char raw ++ ReadError e :: rest)).
  2:{ rewrite app_assoc, <- map_app, <- app_assoc. reflexivity. }
  rewrite iter_after_newline, (iter_error_raw raw e rest [] Hraw).
  cbn [fst snd]. rewrite app_nil_r, wireguard_lines_iter.
  unfold iter_lines_from. split; reflexivity.
Qed.

Lemma wireguard_toggle_read_error_drops_the_unfinished_line_witness :
  wireguard_toggle.run
    (fun _ => inr {| stdout := map Char (py "a" ++ LF :: py "b")
                               ++ ReadError (Exception (py "io")) :: [];
                     wait := inr 0%Z |})
    {| wireguard_toggle.command := py "x" |}
  = (map output_ready (wireguard_toggle.lines (py "a" ++ [LF]))
     ++ [finished_err (py "io")], inr tt)
  /\ wireguard_toggle.run
       (fun _ => inr {| stdout := map Char (py "b")
                                  ++ ReadError (Exception (py "io")) :: [];
                        wait := inr 0%Z |})
       {| wireguard_toggle.command := py "x" |}
     = ([finished_err (py "io")], inr tt).
Proof.
  exact (wireguard_toggle_read_error_drops_the_unfinished_line
           (py "a") (py "b") (Exception (py "io")) [] (inr 0%Z) (py "x")
           eq_refl).
Defined.

(** ** The exit status in the message *)

Lemma to_int_not_nil (n : Z) :
  Z.to_int n <> Decimal.Pos Decimal.Nil /\ Z.to_int n <> Decimal.Neg Decimal.Nil.
Proof.
  destruct n as [|p|p]; simpl; split; try discriminate;
    intros [= H]; now apply Unsigned.to_uint_nonnil in H.
Qed.

Lemma str_of_int_injective (a b : Z) :
  Py.str_of_int a = Py.str_of_int b -> a = b.
Proof.
  unfold Py.str_of_int. intro H.
  apply (f_equal string_of_list_ascii) in H.
  rewrite !string_of_list_ascii_of_string in H.
  apply (f_equal NilZero.int_of_string) in H.
  destruct (to_int_not_nil a) as [A1 A2], (to_int_not_nil b) as [B1 B2].
  rewrite !NilZero.isi in H by assumption.
  injection H as H. apply (f_equal Z.of_int) in H.
  now rewrite !DecimalZ.of_to in H.
Qed.

(** X8. The last signal of a run tells the exit status: two exit statuses
    are reported by the same signal only if they are equal, and a status
    other than 0 is never reported by [finished_ok]. *)
Theorem report_tells_the_exit_status :
  forall a b : Z,
    report a = report b ->
    a = b /\ (signals (report a) = [finished_ok] <-> a = 0%Z).
Proof.
  intros a b H. rewrite !report_eq in H. split.
  - destruct (Z.eqb_spec a 0) as [Ea|Na]; destruct (Z.eqb_spec b 0) as [Eb|Nb];
      try congruence; try discriminate.
    injection H as H. now apply str_of_int_injective.
  - rewrite report_eq. simpl.
    destruct (Z.eqb_spec a 0) as [->|Na]; split; easy.
Qed.

Lemma report_tells_the_exit_status_witness :
  127%Z = 127%Z /\ (signals (report 127) = [finished_ok] <-> 127%Z = 0%Z).
Proof. exact (report_tells_the_exit_status 127 127 eq_refl). Defined.

(** ** The case of a line *)

Lemma lower_char_keeps_marker (c x : ascii) :
  In x (py "[#]") ->
  Ascii.eqb (Py.lower_char c) x = Ascii.eqb c x.
Proof.
  intros [<-|[<-|[<-|[]]]];
    destruct c as [[] [] [] [] [] [] [] []]; reflexivity.
Qed.

Lemma lower_char_idempotent (c : ascii) :
  Py.lower_char (Py.lower_char c) = Py.lower_char c.
Proof. destruct c as [[] [] [] [] [] [] [] []]; reflexivity. Qed.

Lemma startswith_lower (p : str) : forall s,
  (forall c x, In x p -> Ascii.eqb (Py.lower_char c) x = Ascii.eqb c x) ->
  Py.startswith (Py.lower s) p = Py.startswith s p.
Proof.
  induction p as [|x p IH]; intros [|c s] H; try reflexivity.
  cbn [Py.lower map Py.startswith].
  rewrite (H c x (or_introl eq_refl)). f_equal.
  apply IH. intros c' x' Hx. apply H. now right.
Qed.

Lemma startswith_marker_lower (line : str) :
  Py.startswith (Py.lower line) (py "[#]") = Py.startswith line (py "[#]").
Proof.
  apply startswith_lower. intros c x. apply lower_char_keeps_marker.
Qed.

(** X9. The tag of a line depends on its lower-case form only: two lines
    that differ in the case of their letters get the same tag, and a line
    gets the tag of its lower-case form. *)
Theorem classify_ignores_case :
  forall a b : str,
    Py.lower a = Py.lower b ->
    classify a = classify b /\ classify (Py.lower a) = classify a.
Proof.
  assert (L : forall x, classify x
                        = if Py.startswith (Py.lower x) (py "[#]") then directive
                          else if Py.any (fun w => Py.contains w (Py.lower x))
                                    keywords then error else plain).
  { intro x. unfold classify. now rewrite startswith_marker_lower. }
  intros a b H. split.
  - now rewrite (L a), (L b), H.
  - rewrite (L (Py.lower a)), (L a).
    replace (Py.lower (Py.lower a)) with (Py.lower a); [reflexivity|].
    unfold Py.lower. rewrite map_map. apply map_ext.
    intro c. now rewrite lower_char_idempotent.
Qed.

Lemma classify_ignores_case_witness :
  classify (py "Handshake FAILED") = classify (py "handshake Failed")
  /\ classify (Py.lower (py "Handshake FAILED"))
     = classify (py "Handshake FAILED").
Proof.
  exact (classify_ignores_case (py "Handshake FAILED") (py "handshake Failed")
           eq_refl).
Defined.

(** ** A command from the click to the end *)

Lemma deliver_app (p : Panel) (a b : list Signal) (w : WireGuardToggle) :
  deliver p (a ++ b) w = deliver p b (deliver p a w).
Proof. unfold deliver. now rewrite map_app, fold_left_app. Qed.

Lemma deliver_lines (p : Panel) (t : Started) (ls : list str) :
  forall w,
    in_flight w = [t] ->
    deliver p (map output_ready ls) w
    = set_log (log_box w ++ map span_of ls) w.
Proof.
  induction ls as [|l ls IH]; intros w H.
  - destruct w. unfold set_log. simpl. now rewrite app_nil_r.
  - unfold deliver. cbn [map fold_left handle]. rewrite H. cbn [nth_error].
    fold (deliver p (map output_ready ls) (append_log l w)).
    rewrite IH by exact H. unfold append_log, set_log. cbn.
    now rewrite <- app_assoc.
Qed.

Lemma last_snoc {A} (l : list A) (a d : A) : last (l ++ [a]) d = a.
Proof.
  induction l as [|x l IH]; [reflexivity|].
  simpl. destruct (l ++ [a]) eqn:E; [now destruct l | exact IH].
Qed.

Lemma lines_of_run_shape (ls : list str) (t : Signal) :
  is_terminal t = true -> lines_of (map output_ready ls ++ [t]) = ls.
Proof.
  intro H. rewrite lines_of_app, lines_of_output_ready.
  destruct t; [discriminate | |]; apply app_nil_r.
Qed.

Lemma session_end (p : Panel) (command label : str) (w : WireGuardToggle)
    (ls : list str) (t : Signal) :
  in_flight w = [] ->
  is_terminal t = true ->
  back_to_idle p label (map output_ready ls ++ [t])
    (start_command p command label w).
Proof.
  intros Hw Ht. unfold back_to_idle.
  rewrite deliver_app, last_snoc, (lines_of_run_shape ls t Ht).
  rewrite (deliver_lines p {| thread_command := command;
                              thread_label := label |})
    by (cbn; now rewrite Hw).
  set (t0 := {| thread_command := command; thread_label := label |}).
  set (w1 := set_log (log_box (start_command p command label w)
                      ++ map span_of ls) (start_command p command label w)).
  assert (F : in_flight w1 = [t0]) by (cbn; now rewrite Hw).
  assert (L : log_box w1 = span_of (header label) :: map span_of ls)
    by reflexivity.
  unfold deliver, execution_state. cbn [map fold_left handle].
  rewrite F. cbn [nth_error].
  destruct t as [l| |err]; [discriminate | |];
    (split; [cbn [in_flight finished]; replace (in_flight (_on_done _ _ _ w1))
               with (in_flight w1) by reflexivity; now rewrite F|];
     split; [apply _on_done_open|];
     split; [exact L | reflexivity]).
Qed.

(** X10. A command from its start to its end, in both files: starting from
    a window with nothing in flight, once the signals of the run have been
    handled in order, nothing is in flight, the switched buttons are
    enabled again, the log is the header followed by the emitted lines in
    the order of their arrival, each under its tag, and the status label
    shows success in green after [finished_ok] and the failure message in
    red after [finished_err]. This holds whatever the process does. *)
Theorem a_command_ends_with_the_buttons_enabled :
  forall (p : Panel) (sh : Shell) (command label : str) (w : WireGuardToggle),
    in_flight w = [] ->
    back_to_idle p label
      (signals (togglev2.run sh {| togglev2.command := command |}))
      (start_command p command label w)
    /\ back_to_idle p label
         (signals (wireguard_toggle.run sh
                     {| wireguard_toggle.command := command |}))
         (start_command p command label w).
Proof.
  intros p sh command label w Hw.
  destruct (togglev2_run_shape sh {| togglev2.command := command |})
    as (l2 & E2).
  destruct (wireguard_toggle_run_shape sh
              {| wireguard_toggle.command := command |}) as (l1 & E1).
  rewrite E2, E1. unfold signals. cbn [fst].
  split; apply session_end; try exact Hw; apply outcome_terminal.
Qed.

Lemma a_command_ends_with_the_buttons_enabled_witness :
  let sh : Shell :=
    fun _ => inr {| stdout := map Char (py "[#] ip link add awg0" ++ [LF]);
                    wait := inr 1%Z |} in
  back_to_idle Togglev2 (py "Tunnel UP")
    (signals (togglev2.run sh {| togglev2.command := py "sudo awg-quick up awg0" |}))
    (start_command Togglev2 (py "sudo awg-quick up awg0") (py "Tunnel UP") init)
  /\ back_to_idle Togglev2 (py "Tunnel UP")
       (signals (wireguard_toggle.run sh
                   {| wireguard_toggle.command := py "sudo awg-quick up awg0" |}))
       (start_command Togglev2 (py "sudo awg-quick up awg0") (py "Tunnel UP")
          init).
Proof.
  intro sh.
  exact (a_command_ends_with_the_buttons_enabled Togglev2 sh
           (py "sudo awg-quick up awg0") (py "Tunnel UP") init eq_refl).
Defined.

(** ** The buttons that are not switched *)

Lemma handle_keeps_unswitched (p : Panel) (w : WireGuardToggle)
    (ev : ui_event) (b : button) :
  existsb (button_eqb b) (switched p) = false ->
  btn_enabled (handle p w ev) b = btn_enabled w b.
Proof.
  intro H. destruct ev as [b0|n sig]; cbn [handle].
  - destruct (existsb (button_eqb b0) (buttons p) && btn_enabled w b0);
      [|reflexivity].
    destruct b0; try reflexivity; cbn; now rewrite H.
  - destruct (nth_error (in_flight w) n); [|reflexivity].
    destruct sig; [reflexivity | |]; cbn; now rewrite H.
Qed.

(** X11. A button that [set_buttons_enabled] does not switch is enabled
    whatever clicks and signals the window has handled: in [togglev2.py]
    Ping and Config stay enabled while a command runs. *)
Theorem unswitched_buttons_stay_enabled :
  forall (p : Panel) (evs : list ui_event) (b : button),
    existsb (button_eqb b) (switched p) = false ->
    btn_enabled (main_loop p evs) b = true.
Proof.
  intros p evs b H. unfold main_loop.
  assert (G : forall w, btn_enabled w b = true ->
              btn_enabled (fold_left (handle p) evs w) b = true).
  { induction evs as [|ev evs IH]; intros w Hw; [exact Hw|].
    simpl. apply IH. now rewrite handle_keeps_unswitched. }
  now apply G.
Qed.

Lemma unswitched_buttons_stay_enabled_witness :
  btn_enabled
    (main_loop Togglev2
       [clicked btn_up; from_thread 0 (output_ready (py "[#] wg setconf"))])
    btn_ping = true.
Proof.
  exact (unswitched_buttons_stay_enabled Togglev2
           [clicked btn_up; from_thread 0 (output_ready (py "[#] wg setconf"))]
           btn_ping eq_refl).
Defined.

(** ** The two loops, beyond tidy lines *)

Lemma no_CR_no_ESC_no_ESC (s : str) : no_CR_no_ESC s = true -> no_ESC s = true.
Proof.
  unfold no_CR_no_ESC, no_ESC. rewrite !forallb_forall.
  intros H c Hc. specialize (H c Hc). now apply andb_true_iff in H as [_ H].
Qed.

Lemma related_flush (buf : str) :
  no_CR_no_ESC buf = true ->
  LF_free buf = true ->
  flushed buf = filter truthy (map Py.strip (body_lines buf))
  /\ body_lines (buf ++ [LF]) = body_lines buf
  /\ body_lines buf = (if truthy buf then [buf] else []).
Proof.
  intros Hp Hl.
  assert (B : body_lines buf = (if truthy buf then [buf] else [])).
  { unfold body_lines. now rewrite (rstrip_LF_free buf Hl). }
  split; [|split; [|exact B]].
  - rewrite B. unfold flushed, sanitize.
    rewrite (strip_ansi_no_ESC buf (no_CR_no_ESC_no_ESC buf Hp)).
    destruct buf as [|c buf]; [reflexivity|]. simpl.
    now destruct (truthy (Py.strip (c :: buf))).
  - unfold body_lines. now rewrite rstrip_LF_snoc.
Qed.

Lemma loops_related_from (s : str) : forall buf,
  no_CR_no_ESC s = true ->
  no_CR_no_ESC buf = true ->
  LF_free buf = true ->
  lines_from buf s
  = filter truthy (map Py.strip (iter_lines_from buf s)).
Proof.
  induction s as [|c s IH]; intros buf Hs Hb Hl.
  - destruct (related_flush buf Hb Hl) as (F & _ & B).
    rewrite lines_from_nil, iter_lines_from_nil, F, B.
    now destruct (truthy buf).
  - rewrite lines_from_cons, iter_lines_from_cons. unfold is_terminator.
    cbn [no_CR_no_ESC forallb] in Hs. fold (no_CR_no_ESC s) in Hs.
    apply andb_true_iff in Hs as [Hc Hs].
    apply andb_true_iff in Hc as [Hcr Hesc].
    apply negb_true_iff in Hcr. rewrite Hcr, orb_false_r.
    destruct (Ascii.eqb c LF) eqn:Elf.
    + apply Ascii.eqb_eq in Elf. subst c.
      destruct (related_flush buf Hb Hl) as (F & S & _).
      rewrite S, map_app, filter_app, <- F. f_equal. now apply IH.
    + apply IH; [exact Hs | |].
      * unfold no_CR_no_ESC in *. rewrite forallb_app, Hb. simpl.
        now rewrite Hcr, Hesc.
      * unfold LF_free in *. rewrite forallb_app, Hl. simpl. now rewrite Elf.
Qed.

(** X12. On a stream without CR and without ESC, the lines of
    [togglev2.py] are the lines of [wireguard_toggle.py] with the white
    space at their two ends removed, those left empty being dropped: the
    two files differ there by the trimming only. *)
Theorem togglev2_lines_are_the_trimmed_wireguard_lines :
  forall s : str,
    no_CR_no_ESC s = true ->
    togglev2.lines s
    = filter truthy (map Py.strip (wireguard_toggle.lines s)).
Proof.
  intros s H. rewrite lines_lines_from, wireguard_lines_iter.
  now apply loops_related_from.
Qed.

Lemma togglev2_lines_are_the_trimmed_wireguard_lines_witness :
  togglev2.lines (py "  up " ++ LF :: py "   " ++ LF :: py "ok")
  = filter truthy
      (map Py.strip
         (wireguard_toggle.lines (py "  up " ++ LF :: py "   " ++ LF :: py "ok"))).
Proof.
  exact (togglev2_lines_are_the_trimmed_wireguard_lines
           (py "  up " ++ LF :: py "   " ++ LF :: py "ok") eq_refl).
Defined.

(** ** The log of the window *)

Lemma handle_keeps_header (p : Panel) (w : WireGuardToggle) (ev : ui_event) :
  log_has_header w -> log_has_header (handle p w ev).
Proof.
  unfold log_has_header. intro H. destruct ev as [b|n sig]; cbn [handle].
  - destruct (existsb (button_eqb b) (buttons p) && btn_enabled w b);
      [|exact H].
    destruct b; try exact H; cbn; now exists [].
  - destruct (nth_error (in_flight w) n) as [t0|] eqn:E; [|exact H].
    destruct (_thread w) as [t|] eqn:T.
    + destruct H as (entries & L).
      destruct sig as [line| |err]; cbn; rewrite T.
      * rewrite L. now exists (entries ++ [span_of line]).
      * now exists entries.
      * now exists entries.
    + destruct H as [_ F]. rewrite F in E. destruct n; discriminate.
Qed.

(** X13. Whatever clicks and signals the window has handled: as long as no
    command was started the log is empty; from then on the log starts with
    the header of the command started last, so each start clears what the
    command before it had logged. *)
Theorem log_starts_with_the_header_of_the_last_command :
  forall (p : Panel) (evs : list ui_event),
    match _thread (main_loop p evs) with
    | None => log_box (main_loop p evs) = []
    | Some t =>
        exists entries,
          log_box (main_loop p evs)
          = span_of (header (thread_label t)) :: entries
    end.
Proof.
  intros p evs.
  assert (G : forall w, log_has_header w ->
              log_has_header (fold_left (handle p) evs w)).
  { induction evs as [|ev evs IH]; intros w H; [exact H|].
    simpl. now apply IH, handle_keeps_header. }
  specialize (G init (conj eq_refl eq_refl)). fold (main_loop p evs) in G.
  unfold log_has_header in G.
  destruct (_thread (main_loop p evs)); [exact G | apply G].
Qed.

(** ** CR and LF *)

Lemma lines_from_any_terminator (s : str) : forall buf,
  lines_from buf (map (fun c => if is_terminator c then LF else c) s)
  = lines_from buf s.
Proof.
  induction s as [|c s IH]; intro buf; [reflexivity|].
  cbn [map]. rewrite !lines_from_cons.
  destruct (is_terminator c) eqn:T.
  - change (is_terminator LF) with true. cbv iota. now rewrite IH.
  - rewrite T. apply IH.
Qed.

(** X14. The loop of [togglev2.py] makes no difference between "\r" and
    "\n": writing "\n" for every terminator of a stream leaves the emitted
    lines as they are, so a line redrawn with "\r" is emitted at each
    redraw and "\r\n" ends one line. *)
Theorem togglev2_treats_CR_as_LF :
  forall s : str,
    togglev2.lines (map (fun c => if is_terminator c then LF else c) s)
    = togglev2.lines s.
Proof.
  intro s. rewrite !lines_lines_from. apply lines_from_any_terminator.
Qed.
